(** * excel-formula-engine: a shallow embedding of the formula evaluator

    The development follows the JavaScript sources:
    - [FormulaEngine]  (the engine class: function table, [processData],
      [evaluateFormula], [evaluateAst], [getRangeValues], [getCellValue],
      [parseCellReference], [_convertToNumber]);
    - [StaticExcelFunctions] (the class of static helpers [SUM], [AVERAGE],
      [COUNT], [MAX], [MIN] the engine calls on flattened value lists);
    - [ExcelFunctions] (src/functions/ExcelFunctions.js, the instance-based
      library with its own [getFunctionArgValues]).

    JavaScript numbers are IEEE-754 doubles: they are modelled by Rocq's
    primitive floats.  Exceptions are modelled by completion records. *)

From Stdlib Require Import ZArith List String Ascii Floats Lia Bool Sorted.
From stdpp Require Import gmap strings pretty.
Import ListNotations.

Set Warnings "-register-all".

Local Open Scope string_scope.
Local Open Scope Z_scope.

(** ** Completion records: a normal value or a thrown exception *)

Inductive Completion (A : Type) : Type :=
| Normal (a : A)
| Throw (message : string).

Arguments Normal {A} a.
Arguments Throw {A} message.

Definition bindC {A B : Type} (c : Completion A) (k : A -> Completion B) : Completion B :=
  match c with
  | Normal a => k a
  | Throw m => Throw m
  end.

(** [try { body } catch (e) { handler }] *)
Definition tryCatch {A : Type} (body : Completion A) (handler : string -> Completion A) : Completion A :=
  match body with
  | Normal a => Normal a
  | Throw m => handler m
  end.

(** A [try] whose [catch] returns a fixed value never throws. *)
Definition tryCatchReturn {A : Type} (body : Completion A) (fallback : A) : A :=
  match body with
  | Normal a => a
  | Throw _ => fallback
  end.

#[export] Instance completion_ret : MRet Completion := fun A a => Normal a.
#[export] Instance completion_bind : MBind Completion := fun A B k c => bindC c k.

(** ** JavaScript values that flow through the engine *)

Inductive Value : Type :=
| VUndefined
| VNull
| VBool (b : bool)
| VNum (n : float)
| VStr (s : string)
| VArr (elements : list Value).

Definition isUndefined (v : Value) : bool :=
  match v with VUndefined => true | _ => false end.

Definition typeofNumber (v : Value) : bool :=
  match v with VNum _ => true | _ => false end.

Definition typeofString (v : Value) : bool :=
  match v with VStr _ => true | _ => false end.

(** The error sentinels *)
Definition ERROR : Value := VStr "#ERROR!".
Definition REF : Value := VStr "#REF!".
Definition DIV0 : Value := VStr "#DIV/0!".
Definition CIRCULAR : Value := VStr "#CIRCULAR!".

(** ** Expression trees, as the parser hands them to the engine

    A node is an object with a [type] tag.  [Null] stands for a falsy node
    ([null] or [undefined]); [Other] for an object whose tag is none of the
    five the engine dispatches on. *)

Inductive Ast : Type :=
| Null
| Operation (operator : string) (left right : Ast)
| Function (name : string) (arguments : list Ast)
| Cell (reference : string) (tableId : option Z)
| Range (reference : string) (tableId : option Z)
| Literal (value : Value)
| Other (type : string).

(** ** Host built-ins and external collaborators

    [Number(s)] on a string, number-to-string conversion and [Math.pow] are
    built-ins of the JavaScript host; the formula parser and the formatter
    are modules of the repository that the engine imports.  Everything
    below is parametric in them. *)

Class Host : Type := {
  (** ECMAScript StringToNumber, behind [Number(s)] and [isNaN(s)] *)
  stringToNumber : string -> float;
  (** ECMAScript Number::toString, behind [String(n)], template literals
      and string concatenation *)
  numberToString : float -> string;
  (** [Math.pow] *)
  mathPow : float -> float -> float;
  (** [FormulaParser.parse]: an expression tree, or a thrown syntax error *)
  parse : string -> Completion Ast;
  (** [ExcelFormatter.format(value, format)]: [displayValue] and [textColor] *)
  formatterFormat : Value -> string -> Value * Value
}.

(** ** Coercions *)

Fixpoint joinStrings (sep : string) (parts : list string) : string :=
  match parts with
  | [] => EmptyString
  | [p] => p
  | p :: rest => p +:+ sep +:+ joinStrings sep rest
  end.

(** [String(v)]; array elements [null] and [undefined] print as the empty
    string inside [Array.prototype.join]. *)
Fixpoint toStringV `{Host} (v : Value) : string :=
  match v with
  | VUndefined => "undefined"
  | VNull => "null"
  | VBool true => "true"
  | VBool false => "false"
  | VNum n => numberToString n
  | VStr s => s
  | VArr elements =>
      joinStrings ","
        (List.map (fun e => match e with
                            | VUndefined | VNull => EmptyString
                            | _ => toStringV e
                            end) elements)
  end.

(** [Number(v)] *)
Definition toNumber `{Host} (v : Value) : float :=
  match v with
  | VUndefined => nan
  | VNull => 0%float
  | VBool true => 1%float
  | VBool false => 0%float
  | VNum n => n
  | VStr s => stringToNumber s
  | VArr _ => stringToNumber (toStringV v)
  end.

(** the global [isNaN(v)] *)
Definition isNaN `{Host} (v : Value) : bool := is_nan (toNumber v).

Definition toPrimitive `{Host} (v : Value) : Value :=
  match v with
  | VArr _ => VStr (toStringV v)
  | _ => v
  end.

(** the binary [+]: concatenation as soon as one side is a string *)
Definition jsAdd `{Host} (a b : Value) : Value :=
  let pa := toPrimitive a in
  let pb := toPrimitive b in
  match pa, pb with
  | VStr s, _ => VStr (s +:+ toStringV pb)
  | _, VStr s => VStr (toStringV pa +:+ s)
  | _, _ => VNum (toNumber pa + toNumber pb)
  end.

(** the binary [/] *)
Definition jsDiv `{Host} (a b : Value) : Value :=
  VNum (toNumber a / toNumber b).

(** [array.length] as a number *)
Definition lengthNumber {A : Type} (l : list A) : float :=
  PrimFloat.of_uint63 (Uint63.of_Z (Z.of_nat (List.length l))).

(** [Math.max(a, b)] and [Math.min(a, b)] on two numbers, with the order
    -0 < +0 *)
Definition max2 (a b : float) : float :=
  if is_nan a || is_nan b then nan
  else if (a <? b)%float then b
  else if (b <? a)%float then a
  else if get_sign a then b else a.

Definition min2 (a b : float) : float :=
  if is_nan a || is_nan b then nan
  else if (a <? b)%float then a
  else if (b <? a)%float then b
  else if get_sign a then a else b.

(** [Math.max(...numbers)], [Math.min(...numbers)] *)
Definition mathMax (numbers : list float) : float :=
  fold_left max2 numbers neg_infinity.

Definition mathMin (numbers : list float) : float :=
  fold_left min2 numbers infinity.

(** ** Strings: the character tests the engine's regular expressions use

    Strings are sequences of 8-bit code units; the classes below are the
    ASCII ones, which is what [A-Za-z] and [\d] match (also under the [i]
    flag, whose case folding never maps a non-ASCII unit to an ASCII one). *)

Definition isUpperLetter (c : ascii) : bool :=
  let n := nat_of_ascii c in (65 <=? n)%nat && (n <=? 90)%nat.

Definition isLowerLetter (c : ascii) : bool :=
  let n := nat_of_ascii c in (97 <=? n)%nat && (n <=? 122)%nat.

Definition isLetter (c : ascii) : bool := isUpperLetter c || isLowerLetter c.

Definition isDigit (c : ascii) : bool :=
  let n := nat_of_ascii c in (48 <=? n)%nat && (n <=? 57)%nat.

Definition upperChar (c : ascii) : ascii :=
  if isLowerLetter c then ascii_of_nat (nat_of_ascii c - 32) else c.

Fixpoint toUpperCase (s : string) : string :=
  match s with
  | EmptyString => EmptyString
  | String c rest => String (upperChar c) (toUpperCase rest)
  end.

(** the longest prefix of [s] whose characters satisfy [p], and the rest *)
Fixpoint spanChars (p : ascii -> bool) (s : string) : string * string :=
  match s with
  | EmptyString => (EmptyString, EmptyString)
  | String c rest =>
      if p c then let (taken, remaining) := spanChars p rest in (String c taken, remaining)
      else (EmptyString, s)
  end.

(** the group [(\$?)] *)
Definition optionalDollar (s : string) : string * string :=
  match s with
  | String "$"%char rest => ("$", rest)
  | _ => (EmptyString, s)
  end.

Definition startsWithEq (s : string) : bool :=
  match s with
  | String "="%char _ => true
  | _ => false
  end.

(** [parseInt] on a string of decimal digits *)
Fixpoint parseDigits (s : string) (acc : Z) : Z :=
  match s with
  | EmptyString => acc
  | String c rest => parseDigits rest (acc * 10 + (Z.of_nat (nat_of_ascii c) - 48))
  end.

Definition parseInt (s : string) : Z := parseDigits s 0.

(** whitespace and line terminators stripped by [String.prototype.trim],
    among 8-bit code units *)
Definition isWhiteSpace (c : ascii) : bool :=
  let n := nat_of_ascii c in
  ((9 <=? n)%nat && (n <=? 13)%nat) || (n =? 32)%nat || (n =? 160)%nat.

(** [s.trim() !== ''] *)
Fixpoint trimNonEmpty (s : string) : bool :=
  match s with
  | EmptyString => false
  | String c rest => if isWhiteSpace c then trimNonEmpty rest else true
  end.

(** ** The data model *)

Record CellData : Type := mkCell {
  value : Value;
  resolved : bool;
  resolvedValue : Value;          (* [VUndefined] while the property is unset *)
  displayValue : Value;
  excelFormat : option string;
  textColor : Value
}.

Definition Row : Type := list CellData.
Definition Table : Type := list Row.
Definition Workbook : Type := list Table.

(** an input cell as the data-loading layer produces it *)
Definition rawCell (v : Value) : CellData :=
  mkCell v false VUndefined VUndefined None VUndefined.

(** [array[i]] for a number [i]: [undefined] outside [0 .. length-1] *)
Definition index {A : Type} (l : list A) (i : Z) : option A :=
  if i <? 0 then None else nth_error l (Z.to_nat i).

Record CellRef : Type := mkCellRef {
  col : Z;
  row : Z;
  isAbsoluteCol : bool;
  isAbsoluteRow : bool
}.

(** ** Small array helpers *)

(** [Array.prototype.flat()]: one level of nesting is spliced in *)
Definition flat (l : list Value) : list Value :=
  flat_map (fun v => match v with VArr xs => xs | _ => [v] end) l.

(** [array.map(f)] for a callback that may throw *)
Definition mapC {A B : Type} (f : A -> Completion B) : list A -> Completion (list B) :=
  fix go (l : list A) : Completion (list B) :=
    match l with
    | [] => Normal []
    | a :: rest => b ← f a; bs ← go rest; Normal (b :: bs)
    end.

(** [for (const a of l) { s = f(s, a) }] for a body that may throw *)
Fixpoint forOf {St A : Type} (f : St -> A -> Completion St) (l : list A) (s : St) : Completion St :=
  match l with
  | [] => Normal s
  | a :: rest => s' ← f s a; forOf f rest s'
  end.

(** [array.forEach((a, i) => ...)] threading the mutated store *)
Fixpoint forEachFrom {St A : Type} (f : A -> nat -> St -> St) (l : list A) (i : nat) (s : St) : St :=
  match l with
  | [] => s
  | a :: rest => forEachFrom f rest (S i) (f a i s)
  end.

Definition forEach {St A : Type} (f : A -> nat -> St -> St) (l : list A) (s : St) : St :=
  forEachFrom f l 0%nat s.

(** the integers [lo, lo+1, ..., hi] a counting [for] loop visits *)
Definition loopRange (lo hi : Z) : list Z :=
  List.map (fun k => lo + Z.of_nat k) (seq 0 (Z.to_nat (hi - lo + 1))).

(** [s.split(':')] destructured as [[startRef, endRef]]: the text before the
    first colon, and the text between the first and the second colon
    ([undefined] when there is no colon) *)
Fixpoint splitColon (s : string) : string * option string :=
  match s with
  | EmptyString => (EmptyString, None)
  | String ":"%char rest => (EmptyString, Some (fst (splitColon rest)))
  | String c rest => let (first, second) := splitColon rest in (String c first, second)
  end.

(** [s.includes('%')] *)
Fixpoint includesPercent (s : string) : bool :=
  match s with
  | EmptyString => false
  | String "%"%char _ => true
  | String _ rest => includesPercent rest
  end.

(** truthiness *)
Definition truthy (v : Value) : bool :=
  match v with
  | VUndefined | VNull => false
  | VBool b => b
  | VNum n => negb (is_nan n || is_zero n)
  | VStr EmptyString => false
  | VStr _ => true
  | VArr _ => true
  end.

(** ** The static function library (the static [ExcelFunctions] class) *)

Module StaticExcelFunctions.

Definition SUM `{Host} (values : list Value) : Value :=
  VNum (fold_left (fun sum value =>
                     let num := toNumber value in
                     if is_nan num then sum else (sum + num)%float)
                  values 0%float).

Definition AVERAGE `{Host} (values : list Value) : Value :=
  if (List.length values =? 0)%nat then VNum 0
  else
    let numbers := List.filter (fun value => typeofNumber value && negb (isNaN value)) values in
    if (List.length numbers =? 0)%nat then VNum 0
    else
      let sum := fold_left (fun acc val => (acc + toNumber val)%float) numbers 0%float in
      VNum (sum / lengthNumber numbers).

Definition COUNT `{Host} (values : list Value) : Value :=
  VNum (lengthNumber
          (List.filter (fun value => typeofNumber value
                                     || (typeofString value && negb (isNaN value)))
                       values)).

Definition MAX `{Host} (values : list Value) : Value :=
  let numbers := List.filter (fun n => negb (is_nan n)) (List.map toNumber values) in
  if (List.length numbers =? 0)%nat then ERROR else VNum (mathMax numbers).

Definition MIN `{Host} (values : list Value) : Value :=
  let numbers := List.filter (fun n => negb (is_nan n)) (List.map toNumber values) in
  if (List.length numbers =? 0)%nat then ERROR else VNum (mathMin numbers).

Definition IF (condition trueValue falseValue : Value) : Value :=
  if truthy condition then trueValue else falseValue.

End StaticExcelFunctions.

(** ** The engine (class [FormulaEngine]) *)

Module FormulaEngine.

(** [ref.match(/^(\$?)([A-Za-z]+)(\$?)(\d+)$/i)] and the column loop.
    Rows and columns are exact integers here.  The source computes them as
    doubles, which are these integers as long as the column and the row
    number stay below 2^53 ([safeCellRef] below); past that the doubles
    round, and the statements that depend on the values carry that bound. *)
Fixpoint columnLoop (upperColStr : string) (column : Z) : Z :=
  match upperColStr with
  | EmptyString => column
  | String ch rest =>
      columnLoop rest (column * 26 + (Z.of_nat (nat_of_ascii ch) - Z.of_nat (nat_of_ascii "A")))
  end.

Definition parseCellReference (ref : string) : option CellRef :=
  let (colAbs, afterColAbs) := optionalDollar ref in
  let (colStr, afterCol) := spanChars isLetter afterColAbs in
  let (rowAbs, afterRowAbs) := optionalDollar afterCol in
  let (rowStr, rest) := spanChars isDigit afterRowAbs in
  match colStr, rowStr, rest with
  | String _ _, String _ _, EmptyString =>
      let column := columnLoop (toUpperCase colStr) 0 in
      Some {| col := column;
              row := parseInt rowStr - 1;
              isAbsoluteCol := String.eqb colAbs "$";
              isAbsoluteRow := String.eqb rowAbs "$" |}
  | _, _, _ => None
  end.

(** [cell.resolvedValue !== undefined ? cell.resolvedValue : cell.value] *)
Definition currentValue (cell : CellData) : Value :=
  if isUndefined (resolvedValue cell) then value cell else resolvedValue cell.

(** [object[i]]: a TypeError when [object] is [undefined] *)
Definition member {A : Type} (object : option (list A)) (i : Z) : Completion (option A) :=
  match object with
  | None => Throw "TypeError: cannot read properties of undefined"
  | Some l => Normal (index l i)
  end.

Definition getCellValue (ref : string) (data : Workbook) (tableIndex : Z) : Completion Value :=
  if Z.of_nat (List.length data) <=? tableIndex then Normal REF
  else
    match parseCellReference ref with
    | None => Normal REF
    | Some cellRef =>
        tryCatch
          (rows ← member (index data tableIndex) (row cellRef);
           cell ← member rows (col cellRef);
           match cell with
           | None => Throw "TypeError: cannot read properties of undefined"
           | Some cell => Normal (currentValue cell)
           end)
          (fun _ => Normal REF)
    end.

(** [table?.[row]?.[col]] *)
Definition optionalCell (table : option Table) (r c : Z) : option CellData :=
  match table with
  | None => None
  | Some t => match index t r with
              | None => None
              | Some cells => index cells c
              end
  end.

(** The two counting loops run over exact integers.  In the source [row++]
    and [col++] work on doubles and cannot pass 2^53, so the loops end only
    when both corners are safe ([safeRange] below); the statements that say
    [getRangeValues] returns carry that hypothesis. *)
Definition getRangeValues `{Host} (range : string) (data : Workbook) (tableIndex : Z) : Value :=
  tryCatchReturn
    (if Z.of_nat (List.length data) <=? tableIndex then Normal VNull
     else
       let table := index data tableIndex in
       let normalizedRange := toUpperCase range in
       let (startRef, endRef) := splitColon normalizedRange in
       let start := parseCellReference startRef in
       end_ ← match endRef with
              | None => Throw "TypeError: cannot read properties of undefined"
              | Some endRef => Normal (parseCellReference endRef)
              end;
       match start, end_ with
       | Some start, Some end_ =>
           let values :=
             flat_map (fun r =>
               flat_map (fun c =>
                 match optionalCell table r c with
                 | Some cell =>
                     let numValue := toNumber (currentValue cell) in
                     if is_nan numValue then [] else [VNum numValue]
                 | None => []
                 end)
                 (loopRange (Z.min (col start) (col end_)) (Z.max (col start) (col end_))))
               (loopRange (Z.min (row start) (row end_)) (Z.max (row start) (row end_))) in
           Normal (VArr values)
       | _, _ => Normal VNull
       end)
    VNull.

(** reading [arg.type] on a [null] or [undefined] element of an argument
    list *)
Definition typeOfNull {A : Type} : Completion A :=
  Throw "TypeError: cannot read properties of null (reading 'type')".

(** [arg.tableId !== undefined ? arg.tableId : currentTableIndex] *)
Definition effectiveTable (tableId : option Z) (currentTableIndex : Z) : Z :=
  match tableId with
  | Some t => t
  | None => currentTableIndex
  end.

(** [getFunctionArgValues], open in the evaluator it calls back for
    arguments that are neither ranges nor cells.  Note that both reference
    branches pass [currentTableIndex], not the argument's [tableId]. *)
Definition getFunctionArgValuesWith `{Host}
    (evaluateAst : Ast -> Workbook -> Z -> Value)
    (args : list Ast) (allTables : Workbook) (currentTableIndex : Z) : Completion (list Value) :=
  tryCatch
    (mapped ← mapC (fun arg =>
                 match arg with
                 | Range reference _ =>
                     Normal (getRangeValues reference allTables currentTableIndex)
                 | Cell reference _ =>
                     v ← getCellValue reference allTables currentTableIndex;
                     Normal (VArr [v])
                 | Null => typeOfNull
                 | _ => Normal (VArr [evaluateAst arg allTables currentTableIndex])
                 end) args;
     Normal (flat mapped))
    (fun error => Throw error).

(** the entries of [this.functions] *)
Definition functionSUM `{Host} (args : list Ast) (allTables : Workbook) (currentTableIndex : Z)
  : Completion Value :=
  forOf (fun sum arg =>
           match arg with
           | Range reference tableId =>
               let tableIndex := effectiveTable tableId currentTableIndex in
               match getRangeValues reference allTables tableIndex with
               | VArr (v :: vs) =>
                   Normal (jsAdd sum (fold_left (fun acc val => jsAdd acc val) (v :: vs) (VNum 0)))
               | _ => Normal sum
               end
           | Cell reference tableId =>
               let tableIndex := effectiveTable tableId currentTableIndex in
               value ← getCellValue reference allTables tableIndex;
               let numValue := toNumber value in
               if negb (is_nan numValue) then Normal (jsAdd sum (VNum numValue)) else Normal sum
           | Literal value => Normal (jsAdd sum value)
           | Null => typeOfNull
           | _ => Normal sum
           end)
        args (VNum 0).

Definition functionAVERAGE `{Host} (args : list Ast) (allTables : Workbook) (currentTableIndex : Z)
  : Completion Value :=
  tryCatch
    (values ← forOf (fun values arg =>
                 match arg with
                 | Range reference tableId =>
                     let tableIndex := effectiveTable tableId currentTableIndex in
                     match getRangeValues reference allTables tableIndex with
                     | VArr rangeValues => Normal (values ++ rangeValues)%list
                     | _ => Normal values
                     end
                 | Cell reference tableId =>
                     let tableIndex := effectiveTable tableId currentTableIndex in
                     value ← getCellValue reference allTables tableIndex;
                     let numValue := toNumber value in
                     if negb (is_nan numValue) then Normal (values ++ [VNum numValue])%list
                     else Normal values
                 | Literal value => Normal (values ++ [value])%list
                 | Null => typeOfNull
                 | _ => Normal values
                 end)
              args [];
     Normal (StaticExcelFunctions.AVERAGE values))
    (fun _ => Normal ERROR).

Definition functionCOUNT `{Host} (evaluateAst : Ast -> Workbook -> Z -> Value)
    (args : list Ast) (allTables : Workbook) (currentTableIndex : Z) : Completion Value :=
  values ← getFunctionArgValuesWith evaluateAst args allTables currentTableIndex;
  Normal (StaticExcelFunctions.COUNT values).

Definition functionMAX `{Host} (evaluateAst : Ast -> Workbook -> Z -> Value)
    (args : list Ast) (allTables : Workbook) (currentTableIndex : Z) : Completion Value :=
  values ← getFunctionArgValuesWith evaluateAst args allTables currentTableIndex;
  Normal (StaticExcelFunctions.MAX values).

Definition functionMIN `{Host} (evaluateAst : Ast -> Workbook -> Z -> Value)
    (args : list Ast) (allTables : Workbook) (currentTableIndex : Z) : Completion Value :=
  values ← getFunctionArgValuesWith evaluateAst args allTables currentTableIndex;
  Normal (StaticExcelFunctions.MIN values).

(** [name in this.functions], for own property names (names inherited from
    [Object.prototype] are outside the model) *)
Definition inFunctions (name : string) : bool :=
  String.eqb name "SUM" || String.eqb name "AVERAGE" || String.eqb name "COUNT"
  || String.eqb name "MAX" || String.eqb name "MIN".

(** [this.functions[name](args, allTables, currentTableIndex)] for a
    registered name *)
Definition functions `{Host} (evaluateAst : Ast -> Workbook -> Z -> Value) (name : string)
    (args : list Ast) (allTables : Workbook) (currentTableIndex : Z) : Completion Value :=
  if String.eqb name "SUM" then functionSUM args allTables currentTableIndex
  else if String.eqb name "AVERAGE" then functionAVERAGE args allTables currentTableIndex
  else if String.eqb name "COUNT" then functionCOUNT evaluateAst args allTables currentTableIndex
  else if String.eqb name "MAX" then functionMAX evaluateAst args allTables currentTableIndex
  else if String.eqb name "MIN" then functionMIN evaluateAst args allTables currentTableIndex
  else Throw "TypeError: this.functions[ast.name] is not a function".

(** [evaluateAst(ast, allTables, currentTableIndex)].  The caller in
    [evaluateFormula] passes the visited set as a fourth argument, which the
    three-parameter signature drops. *)
Fixpoint evaluateAst `{Host} (ast : Ast) (allTables : Workbook) (currentTableIndex : Z)
    {struct ast} : Value :=
  match ast with
  | Null => VNull
  | Operation operator astLeft astRight =>
      tryCatchReturn
        (let leftValue := evaluateAst astLeft allTables currentTableIndex in
         let rightValue := evaluateAst astRight allTables currentTableIndex in
         let leftNum := toNumber leftValue in
         let rightNum := toNumber rightValue in
         if is_nan leftNum || is_nan rightNum then Normal ERROR
         else if String.eqb operator "+" then Normal (VNum (leftNum + rightNum))
         else if String.eqb operator "-" then Normal (VNum (leftNum - rightNum))
         else if String.eqb operator "*" then Normal (VNum (leftNum * rightNum))
         else if String.eqb operator "/" then
           Normal (if (rightNum =? 0)%float then DIV0 else VNum (leftNum / rightNum))
         else if String.eqb operator "^" then Normal (VNum (mathPow leftNum rightNum))
         else Throw ("Unknown operator: " +:+ operator))
        ERROR
  | Function name arguments =>
      tryCatchReturn
        (if negb (inFunctions name) then Throw ("Unknown function: " +:+ name)
         else functions (fun a t i => evaluateAst a t i) name
                        arguments allTables currentTableIndex)
        ERROR
  | Cell reference tableId =>
      tryCatchReturn
        (let tableIndex := effectiveTable tableId currentTableIndex in
         getCellValue reference allTables tableIndex)
        ERROR
  | Range reference tableId =>
      tryCatchReturn
        (let rangeTableIndex := effectiveTable tableId currentTableIndex in
         Normal (getRangeValues reference allTables rangeTableIndex))
        ERROR
  | Literal value => tryCatchReturn (Normal value) ERROR
  | Other type => tryCatchReturn (Throw ("Unknown AST type: " +:+ type)) ERROR
  end.

Definition getFunctionArgValues `{Host} :=
  getFunctionArgValuesWith evaluateAst.

(** the template literal [`${currentTableIndex}:${formula}`]; the index
    prints in decimal (as every integer below 10^21 does) *)
Definition formulaKey (currentTableIndex : Z) (formula : string) : string :=
  pretty currentTableIndex +:+ ":" +:+ formula.

(** [evaluateFormula(formula, allTables, currentTableIndex, visited)]: the
    returned value and the visited set as the call leaves it *)
Definition evaluateFormula `{Host} (formula : string) (allTables : Workbook)
    (currentTableIndex : Z) (visited : gset string) : Value * gset string :=
  if negb (startsWithEq formula) then (VStr formula, visited)
  else
    let formulaKey := formulaKey currentTableIndex formula in
    if decide (formulaKey ∈ visited) then (CIRCULAR, visited)
    else
      let visited := visited ∪ {[formulaKey]} in
      match parse formula with
      | Throw _ => (ERROR, visited)
      | Normal ast =>
          let result := evaluateAst ast allTables currentTableIndex in
          (result, visited ∖ {[formulaKey]})
      end.

Definition _convertToNumber `{Host} (value : Value) : Value :=
  if typeofString value && negb (isNaN value)
     && match value with VStr s => trimNonEmpty s | _ => false end
  then VNum (toNumber value)
  else value.

(** *** The orchestrator, [processData]

    The workbook is mutated in place while it is walked; the model threads
    the workbook and the [formulas] list through the three nested
    [forEach] loops.  Rows and cells are taken to be distinct objects (no
    row or cell is shared between two places of the input);
    [processDataObjects] further down models the cell objects themselves,
    for inputs in which one object stands at several places. *)

Inductive Data : Type :=
| DataArray (tables : Workbook)        (* [Array.isArray(data)] *)
| DataObject (tables : Table).         (* an object with a [tables] property *)

Record FormulaEntry : Type := mkEntry {
  entryTable : nat;
  entryRow : nat;
  entryCol : nat;
  entryCell : CellData              (* [...cell] *)
}.

Record Result : Type := mkResult {
  tables : Workbook;
  formulas : list FormulaEntry
}.

Definition getCell (tables : Workbook) (t r c : nat) : option CellData :=
  rows ← tables !! t; cells ← rows !! r; cells !! c.

Definition setCell (tables : Workbook) (t r c : nat) (cell : CellData) : Workbook :=
  alter (alter (fun cells => <[c := cell]> cells) r) t tables.

(** the formatting step shared by both branches:
    [if (cell.excelFormat) { ... } else { cell.displayValue = String(v) }] *)
Definition applyFormat `{Host} (cell : CellData) (formatValue : Value) : CellData :=
  match excelFormat cell with
  | Some (String _ _ as format) =>
      let formatted := formatterFormat formatValue format in
      mkCell (value cell) (resolved cell) (resolvedValue cell)
             (fst formatted) (excelFormat cell)
             (if truthy (snd formatted) then snd formatted else textColor cell)
  | _ =>
      mkCell (value cell) (resolved cell) (resolvedValue cell)
             (VStr (toStringV formatValue)) (excelFormat cell) (textColor cell)
  end.

(** [typeof originalValue === 'string' && originalValue.startsWith('=')] *)
Definition isFormula (originalValue : Value) : option string :=
  match originalValue with
  | VStr s => if startsWithEq s then Some s else None
  | _ => None
  end.

(** the body of the innermost [forEach], on the cell object [cell] found at
    [(tableIndex, rowIndex, colIndex)] *)
Definition processCell `{Host} (result : Result) (tableIndex rowIndex colIndex : nat)
    (cell : CellData) : Result :=
  let originalValue := value cell in
  match isFormula originalValue with
  | Some formula =>
      let resolvedValue' :=
        fst (evaluateFormula formula (tables result) (Z.of_nat tableIndex) ∅) in
      let cell := mkCell (value cell) true (_convertToNumber resolvedValue')
                         (displayValue cell) (excelFormat cell) (textColor cell) in
      let formatValue :=
        match excelFormat cell with
        | Some format =>
            if includesPercent format then jsDiv (resolvedValue cell) (VNum 100)
            else resolvedValue cell
        | None => resolvedValue cell
        end in
      let cell := applyFormat cell formatValue in
      mkResult (setCell (tables result) tableIndex rowIndex colIndex cell)
               (formulas result ++ [mkEntry tableIndex rowIndex colIndex cell])
  | None =>
      let cell := mkCell (value cell) true originalValue
                         (displayValue cell) (excelFormat cell) (textColor cell) in
      let cell := applyFormat cell originalValue in
      mkResult (setCell (tables result) tableIndex rowIndex colIndex cell)
               (formulas result)
  end.

Definition processData `{Host} (data : Data) : Result :=
  let result :=
    mkResult (match data with
              | DataArray tables => tables
              | DataObject tables => [tables]
              end) [] in
  forEach (fun table tableIndex =>
    forEach (fun rows rowIndex =>
      forEach (fun _ colIndex result =>
        match getCell (tables result) tableIndex rowIndex colIndex with
        | Some cell => processCell result tableIndex rowIndex colIndex cell
        | None => result
        end) rows) table)
    (tables result) result.

(** *** [processData] on cell objects

    The arrays of the input hold references to cell objects, and one object
    (or one row array, which comes to the same since the arrays themselves
    are never written) can stand at several places.  A [Layout] gives the
    identity of the object at each place and a [Heap] the fields of each
    object; an assignment to a field of [cell] is a write to the heap, seen
    from every place the object stands at. *)

Definition Layout : Type := list (list (list nat)).

Definition Heap : Type := nat -> CellData.

(** the workbook as a reader finds it: each place with the current fields
    of the object standing there *)
Definition view (heap : Heap) (layout : Layout) : Workbook :=
  map (map (map heap)) layout.

(** the assignments [cell.resolved = ...], [cell.resolvedValue = ...],
    ... to the fields of one object, taken together *)
Definition assign (heap : Heap) (object : nat) (cell : CellData) : Heap :=
  fun other => if Nat.eqb other object then cell else heap other.

Inductive ObjectData : Type :=
| ObjectArray (tables : Layout)              (* [Array.isArray(data)] *)
| ObjectObject (tables : list (list nat)).   (* an object with a [tables] property *)

(** [result.tables] *)
Definition resultTables (data : ObjectData) : Layout :=
  match data with
  | ObjectArray tables => tables
  | ObjectObject tables => [tables]
  end.

Record ObjectResult : Type := mkObjectResult {
  objectHeap : Heap;
  objectFormulas : list FormulaEntry      (* [result.formulas]; [...cell] copies the fields *)
}.

(** the body of the innermost [forEach], on the object [object] found at
    [(tableIndex, rowIndex, colIndex)] of [layout] *)
Definition processObject `{Host} (layout : Layout) (tableIndex rowIndex colIndex : nat)
    (object : nat) (state : ObjectResult) : ObjectResult :=
  let cell := objectHeap state object in
  let originalValue := value cell in
  match isFormula originalValue with
  | Some formula =>
      let resolvedValue' :=
        fst (evaluateFormula formula (view (objectHeap state) layout)
                             (Z.of_nat tableIndex) ∅) in
      let cell := mkCell (value cell) true (_convertToNumber resolvedValue')
                         (displayValue cell) (excelFormat cell) (textColor cell) in
      let formatValue :=
        match excelFormat cell with
        | Some format =>
            if includesPercent format then jsDiv (resolvedValue cell) (VNum 100)
            else resolvedValue cell
        | None => resolvedValue cell
        end in
      let cell := applyFormat cell formatValue in
      mkObjectResult (assign (objectHeap state) object cell)
                     (objectFormulas state
                      ++ [mkEntry tableIndex rowIndex colIndex cell])
  | None =>
      let cell := mkCell (value cell) true originalValue
                         (displayValue cell) (excelFormat cell) (textColor cell) in
      let cell := applyFormat cell originalValue in
      mkObjectResult (assign (objectHeap state) object cell) (objectFormulas state)
  end.

Definition processDataObjects `{Host} (data : ObjectData) (heap : Heap) : ObjectResult :=
  let layout := resultTables data in
  forEach (fun table tableIndex =>
    forEach (fun rows rowIndex =>
      forEach (fun object colIndex state =>
        processObject layout tableIndex rowIndex colIndex object state) rows) table)
    layout (mkObjectResult heap []).

End FormulaEngine.

(** ** The instance-based library (src/functions/ExcelFunctions.js)

    [this.engine] is the [FormulaEngine] above. *)

Module ExcelFunctions.

Import FormulaEngine.

Definition getFunctionArgValues `{Host} (args : list Ast) (allTables : Workbook)
    (currentTableIndex : Z) : Completion (list Value) :=
  mapped ← mapC (fun arg =>
              match arg with
              | Range reference tableId =>
                  let tableIndex := effectiveTable tableId currentTableIndex in
                  Normal (getRangeValues reference allTables tableIndex)
              | Cell reference tableId =>
                  let tableIndex := effectiveTable tableId currentTableIndex in
                  v ← getCellValue reference allTables tableIndex;
                  Normal (VArr [v])
              | Literal value => Normal (VArr [value])
              | Null => FormulaEngine.typeOfNull
              | _ => Normal VUndefined
              end) args;
  Normal (flat mapped).

(** [values.map(v => Number(v)).filter(n => !isNaN(n))] *)
Definition numbersOf `{Host} (values : list Value) : list float :=
  List.filter (fun n => negb (is_nan n)) (List.map toNumber values).

Definition SUM `{Host} (args : list Ast) (allTables : Workbook) (currentTableIndex : Z)
  : Completion Value :=
  tryCatch
    (values ← getFunctionArgValues args allTables currentTableIndex;
     let numbers := numbersOf values in
     Normal (VNum (fold_left (fun sum val => (sum + val)%float) numbers 0%float)))
    (fun _ => Normal ERROR).

Definition AVERAGE `{Host} (args : list Ast) (allTables : Workbook) (currentTableIndex : Z)
  : Completion Value :=
  tryCatch
    (values ← getFunctionArgValues args allTables currentTableIndex;
     let numbers := numbersOf values in
     if (List.length numbers =? 0)%nat then Normal (VNum 0)
     else Normal (VNum (fold_left (fun sum val => (sum + val)%float) numbers 0%float
                        / lengthNumber numbers)))
    (fun _ => Normal ERROR).

Definition COUNT `{Host} (args : list Ast) (allTables : Workbook) (currentTableIndex : Z)
  : Completion Value :=
  tryCatch
    (values ← getFunctionArgValues args allTables currentTableIndex;
     Normal (VNum (lengthNumber
                     (List.filter (fun value => typeofNumber value
                                        || (typeofString value && negb (isNaN value)))
                                  values))))
    (fun _ => Normal ERROR).

Definition MAX `{Host} (args : list Ast) (allTables : Workbook) (currentTableIndex : Z)
  : Completion Value :=
  tryCatch
    (values ← getFunctionArgValues args allTables currentTableIndex;
     let numbers := numbersOf values in
     if (List.length numbers =? 0)%nat then Normal ERROR
     else Normal (VNum (mathMax numbers)))
    (fun _ => Normal ERROR).

Definition MIN `{Host} (args : list Ast) (allTables : Workbook) (currentTableIndex : Z)
  : Completion Value :=
  tryCatch
    (values ← getFunctionArgValues args allTables currentTableIndex;
     let numbers := numbersOf values in
     if (List.length numbers =? 0)%nat then Normal ERROR
     else Normal (VNum (mathMin numbers)))
    (fun _ => Normal ERROR).

End ExcelFunctions.

(** ** A host for running the model on concrete inputs

    The built-ins are given on the inputs the examples use: strings of
    decimal digits (read exactly below 2^53) and strings that do not read as
    numbers; small non-negative integers are printed in decimal.  The parser
    is given by its answers on the formulas of the examples. *)

Module ExampleHost.

Definition exampleStringToNumber (s : string) : float :=
  match s with
  | EmptyString => 0%float
  | _ => if forallb isDigit (list_ascii_of_string s)
         then PrimFloat.of_uint63 (Uint63.of_Z (parseInt s))
         else nan
  end.

Definition exampleNumberToString (n : float) : string :=
  match Prim2SF n with
  | S754_zero _ => "0"
  | S754_infinity false => "Infinity"
  | S754_infinity true => "-Infinity"
  | S754_nan => "NaN"
  | S754_finite negative m e =>
      (if negative then "-" else EmptyString) +:+ pretty (Z.shiftl (Z.pos m) e)
  end.

(** repeated multiplication, for a small non-negative integer exponent *)
Definition examplePow (base exponent : float) : float :=
  match Prim2SF exponent with
  | S754_zero _ => 1%float
  | S754_finite false m e =>
      Nat.iter (Z.to_nat (Z.shiftl (Z.pos m) e)) (fun acc => (acc * base)%float) 1%float
  | _ => nan
  end.

Definition exampleParse (formula : string) : Completion Ast :=
  if String.eqb formula "=A1" then Normal (Cell "A1" None)
  else if String.eqb formula "=B1" then Normal (Cell "B1" None)
  else if String.eqb formula "=1+2" then
    Normal (Operation "+" (Literal (VNum 1)) (Literal (VNum 2)))
  else if String.eqb formula "=1/0" then
    Normal (Operation "/" (Literal (VNum 1)) (Literal (VNum 0)))
  else if String.eqb formula "=SUM(A1:A3)" then
    Normal (Function "SUM" [Range "A1:A3" None])
  else if String.eqb formula "=FOO(1)" then
    Normal (Function "FOO" [Literal (VNum 1)])
  else Throw "SyntaxError".

Definition exampleFormat (v : Value) (format : string) : Value * Value :=
  (v, VUndefined).

Definition exampleHost : Host := {|
  stringToNumber := exampleStringToNumber;
  numberToString := exampleNumberToString;
  mathPow := examplePow;
  parse := exampleParse;
  formatterFormat := exampleFormat
|}.

End ExampleHost.

Import FormulaEngine.

(** ** Two workbooks for the order of resolution

    The same pair of formula cells in a single row, a reference and the
    formula 1+2 it points at, in both orders. *)
Definition referenceFirst : Data :=
  DataArray [[ [rawCell (VStr "=B1"); rawCell (VStr "=1+2")] ]].

Definition referenceLast : Data :=
  DataArray [[ [rawCell (VStr "=1+2"); rawCell (VStr "=A1")] ]].

(** four cell objects: "=1+2", "=A1", "=B1" and the number 5 *)
Definition exampleHeap : Heap :=
  fun object =>
    match object with
    | O => rawCell (VStr "=1+2")
    | S O => rawCell (VStr "=A1")
    | S (S O) => rawCell (VStr "=B1")
    | _ => rawCell (VNum 5)
    end.

(** the [resolvedValue] stored at a place of the processed workbook *)
Definition resolvedAt (result : Result) (t r c : nat) : option Value :=
  resolvedValue <$> getCell (tables result) t r c.

(** ** Vocabulary for the statements below *)

(** [Number.isSafeInteger]: the integers a double holds exactly, below 2^53
    in absolute value *)
Definition safeInteger (z : Z) : Prop := -9007199254740992 < z < 9007199254740992.

(** a coordinate whose column and row number (the row plus one) are safe
    integers: on the texts that give such coordinates the doubles the source
    computes are the exact integers of this development, and a counting loop
    that runs up to such a row or column ends *)
Definition safeCellRef (cellRef : CellRef) : Prop :=
  safeInteger (col cellRef) /\ safeInteger (row cellRef + 1).

(** a range text whose two corners, when both are references, are safe *)
Definition safeRange (range : string) : Prop :=
  match splitColon (toUpperCase range) with
  | (startRef, Some endRef) =>
      match parseCellReference startRef, parseCellReference endRef with
      | Some start, Some end_ => safeCellRef start /\ safeCellRef end_
      | _, _ => True
      end
  | (_, None) => True
  end.

(** the property names every object inherits from [Object.prototype]; the
    operator [in] answers [true] on them as on own properties *)
Definition objectPrototypeNames : list string :=
  ["constructor"; "hasOwnProperty"; "isPrototypeOf"; "propertyIsEnumerable";
   "toLocaleString"; "toString"; "valueOf"; "__proto__";
   "__defineGetter__"; "__defineSetter__"; "__lookupGetter__"; "__lookupSetter__"].

(** a tree whose evaluation is within the model: every range in it has
    safe corners, so the loops of [getRangeValues] end, and no function
    name in it is one that [this.functions] inherits from
    [Object.prototype] *)
Fixpoint ordinaryAst (ast : Ast) : Prop :=
  match ast with
  | Operation _ astLeft astRight => ordinaryAst astLeft /\ ordinaryAst astRight
  | Function name arguments =>
      ~ In name objectPrototypeNames /\
      (fix all (l : list Ast) : Prop :=
         match l with
         | [] => True
         | argument :: rest => ordinaryAst argument /\ all rest
         end) arguments
  | Range reference _ => safeRange reference
  | _ => True
  end.

(** the three [throw] statements inside the [try] block of [evaluateAst]:
    an unknown tag, a function name that is not in [this.functions], and an
    unknown operator between two operands that read as numbers *)
Inductive raisesInTry `{Host} (allTables : Workbook) (currentTableIndex : Z) : Ast -> Prop :=
| raises_unknown_tag (type : string) :
    raisesInTry allTables currentTableIndex (Other type)
| raises_unknown_function (name : string) (arguments : list Ast) :
    inFunctions name = false ->
    ~ In name objectPrototypeNames ->
    raisesInTry allTables currentTableIndex (Function name arguments)
| raises_unknown_operator (operator : string) (astLeft astRight : Ast) :
    ~ In operator ["+"; "-"; "*"; "/"; "^"] ->
    is_nan (toNumber (evaluateAst astLeft allTables currentTableIndex)) = false ->
    is_nan (toNumber (evaluateAst astRight allTables currentTableIndex)) = false ->
    raisesInTry allTables currentTableIndex (Operation operator astLeft astRight).

(** all characters of a string pass a test *)
Definition allChars (p : ascii -> bool) (s : string) : bool :=
  forallb p (list_ascii_of_string s).

(** an argument that is a literal, a cell reference or a range with safe
    corners: reading it neither throws nor runs forever *)
Definition plainArgument (arg : Ast) : Prop :=
  match arg with
  | Cell _ _ | Literal _ => True
  | Range reference _ => safeRange reference
  | _ => False
  end.

(** the text of an absolute marker: "$" when set, nothing otherwise *)
Definition dollar (absolute : bool) : string :=
  if absolute then "$" else EmptyString.

(** the elements of an array with their indices, counted from [i] *)
Fixpoint indexed {A : Type} (l : list A) (i : nat) : list (nat * A) :=
  match l with
  | [] => []
  | a :: rest => (i, a) :: indexed rest (S i)
  end.

(** the places (table, row, column) of a workbook, in the order the three
    nested [forEach] loops of [processData] reach them *)
Definition rowPlaces (t r : nat) (cells : Row) : list (nat * nat * nat) :=
  flat_map (fun ja => [(t, r, fst ja)]) (indexed cells 0).

Definition tablePlaces (t : nat) (table : Table) : list (nat * nat * nat) :=
  flat_map (fun ja => rowPlaces t (fst ja) (snd ja)) (indexed table 0).

Definition places (tables : Workbook) : list (nat * nat * nat) :=
  flat_map (fun ja => tablePlaces (fst ja) (snd ja)) (indexed tables 0).

(** the order of the visit: table first, then row, then column *)
Definition placeBefore (p q : nat * nat * nat) : Prop :=
  let '(t1, r1, c1) := p in
  let '(t2, r2, c2) := q in
  (t1 < t2 \/ (t1 = t2 /\ (r1 < r2 \/ (r1 = r2 /\ c1 < c2))))%nat.

Definition cellAt (tables : Workbook) (place : nat * nat * nat) : option CellData :=
  let '(t, r, c) := place in getCell tables t r c.

(** one turn of the innermost loop body, at a place *)
Definition visitCell `{Host} (result : Result) (place : nat * nat * nat) : Result :=
  let '(t, r, c) := place in
  match getCell (tables result) t r c with
  | Some cell => processCell result t r c cell
  | None => result
  end.

(** the tables [processData] works on *)
Definition inputTables (data : Data) : Workbook :=
  match data with
  | DataArray tables => tables
  | DataObject tables => [tables]
  end.

(** what [processData] leaves in a cell that is not a formula *)
Definition plainCell `{Host} (cell : CellData) : CellData :=
  applyFormat (mkCell (value cell) true (value cell)
                      (displayValue cell) (excelFormat cell) (textColor cell))
              (value cell).

(** the cell [processCell] writes back at the place it is called on *)
Definition storedCell `{Host} (result : Result) (tableIndex : nat) (cell : CellData)
  : CellData :=
  match isFormula (value cell) with
  | Some formula =>
      let resolvedValue' :=
        fst (evaluateFormula formula (tables result) (Z.of_nat tableIndex) ∅) in
      let cell := mkCell (value cell) true (_convertToNumber resolvedValue')
                         (displayValue cell) (excelFormat cell) (textColor cell) in
      applyFormat cell
        match excelFormat cell with
        | Some format =>
            if includesPercent format then jsDiv (resolvedValue cell) (VNum 100)
            else resolvedValue cell
        | None => resolvedValue cell
        end
  | None => plainCell cell
  end.

(** the objects of a layout, place after place *)
Definition objects (layout : Layout) : list nat := concat (concat layout).

(** the object standing at a place *)
Definition objectAt (layout : Layout) (place : nat * nat * nat) : option nat :=
  let '(t, r, c) := place in
  table ← layout !! t; rows ← table !! r; rows !! c.

(** the tables [processDataObjects] returns, read after the run *)
Definition outputTables `{Host} (data : ObjectData) (heap : Heap) : Workbook :=
  view (objectHeap (processDataObjects data heap)) (resultTables data).

(** the tables [processDataObjects] is given, read before the run *)
Definition givenTables (data : ObjectData) (heap : Heap) : Workbook :=
  view heap (resultTables data).

(** every formula among the cell objects of the input parses to an
    ordinary tree or not at all *)
Definition ordinaryFormulas `{Host} (data : ObjectData) (heap : Heap) : Prop :=
  forall (object : nat) (formula : string) (ast : Ast),
    In object (objects (resultTables data)) ->
    isFormula (value (heap object)) = Some formula ->
    parse formula = Normal ast ->
    ordinaryAst ast.

(** the entry of [formulas] for a place, read off a workbook *)
Definition entryAt (tables : Workbook) (place : nat * nat * nat) : option FormulaEntry :=
  let '(t, r, c) := place in
  match getCell tables t r c with
  | Some cell =>
      match isFormula (value cell) with
      | Some _ => Some (mkEntry t r c cell)
      | None => None
      end
  | None => None
  end.

(** discharges [ordinaryFormulas] on a closed input *)
Ltac ordinary_formulas :=
  let Hin := fresh "Hin" in
  let Hformula := fresh "Hformula" in
  let Hparse := fresh "Hparse" in
  intros ? ? ? Hin Hformula Hparse;
  cbn in Hin;
  repeat (destruct Hin as [<- | Hin]); try contradiction;
  vm_compute in Hformula; try discriminate Hformula;
  injection Hformula as <-;
  vm_compute in Hparse; try discriminate Hparse;
  injection Hparse as <-;
  simpl; auto.

(** * Properties *)

(** ** The reference resolver *)

Lemma index_None_negative {A : Type} (l : list A) (i : Z) : i < 0 -> index l i = None.
Proof.
  intros Hneg. unfold index.
  destruct (i <? 0) eqn:E; [reflexivity | apply Z.ltb_ge in E; lia].
Qed.

Lemma index_Some_bounds {A : Type} (l : list A) (i : Z) (a : A) :
  index l i = Some a -> 0 <= i < Z.of_nat (List.length l).
Proof.
  unfold index. destruct (i <? 0) eqn:E; [discriminate |].
  apply Z.ltb_ge in E. intros Hnth.
  assert (Hlt : (Z.to_nat i < List.length l)%nat).
  { apply nth_error_Some. rewrite Hnth. discriminate. }
  lia.
Qed.

(** A leading "A" contributes the digit zero: it leaves the column
    unchanged, so "AA" and "A" decode alike. *)
Lemma columnLoop_leading_A (rest : string) :
  columnLoop (String "A" rest) 0 = columnLoop rest 0.
Proof. reflexivity. Qed.

(** C3: what [parseCellReference] decodes for the columns "A", "Z", "AA"
    and "AB" (on the references "A1", "Z1", "AA1", "AB1"): "A" is column 0
    and "Z" is column 25, but "AA" is column 0 and "AB" is column 1, not 26
    and 27; column 26 is "BA". *)
Theorem parseCellReference_column_decoding :
  (col <$> parseCellReference "A1") = Some 0 /\
  (col <$> parseCellReference "Z1") = Some 25 /\
  (col <$> parseCellReference "AA1") = Some 0 /\
  (col <$> parseCellReference "AB1") = Some 1 /\
  (col <$> parseCellReference "BA1") = Some 26.
Proof. repeat split; reflexivity. Qed.

(** Malformed reference texts have no coordinate. *)
Example parseCellReference_malformed :
  parseCellReference "1A" = None /\ parseCellReference "A" = None /\
  parseCellReference "$" = None /\ parseCellReference "A1:B2" = None.
Proof. repeat split; reflexivity. Qed.

(** C8: [getCellValue] always completes normally, and its value is the
    sentinel [#REF!] when the reference text is malformed, when the table
    index is out of bounds (negative, or not below the number of tables),
    and when no cell sits at the addressed row and column (a missing row or
    a gap at the end of a short row). *)
Theorem getCellValue_never_throws (ref : string) (data : Workbook) (tableIndex : Z) :
  exists v : Value,
    getCellValue ref data tableIndex = Normal v /\
    (parseCellReference ref = None -> v = REF) /\
    (tableIndex < 0 \/ Z.of_nat (List.length data) <= tableIndex -> v = REF) /\
    (forall cellRef : CellRef,
        parseCellReference ref = Some cellRef ->
        optionalCell (index data tableIndex) (row cellRef) (col cellRef) = None ->
        v = REF).
Proof.
  unfold getCellValue.
  destruct (Z.of_nat (List.length data) <=? tableIndex) eqn:Hlen.
  { exists REF. repeat split; auto. }
  apply Z.leb_gt in Hlen.
  destruct (parseCellReference ref) as [cellRef|] eqn:Hparse.
  2:{ exists REF. repeat split; auto. }
  destruct (index data tableIndex) as [table|] eqn:Htable; simpl.
  2:{ exists REF. repeat split; auto. }
  assert (Hnonneg : 0 <= tableIndex) by (apply index_Some_bounds in Htable; lia).
  destruct (index table (row cellRef)) as [cells|] eqn:Hrow; simpl.
  2:{ exists REF. repeat split; auto. }
  destruct (index cells (col cellRef)) as [cell|] eqn:Hcol; simpl.
  2:{ exists REF. repeat split; auto. }
  exists (currentValue cell). repeat split.
  - discriminate.
  - intros [Hneg | Hbig]; lia.
  - intros cellRef' Heq. injection Heq as <-. rewrite Hrow, Hcol. discriminate.
Qed.

(** The three [#REF!] situations on a ragged table: a gap in a short row, a
    missing row, a table index past the end, and a malformed reference. *)
Example getCellValue_ragged :
  let data : Workbook := [[ [rawCell (VNum 1); rawCell (VNum 2)]; [rawCell (VNum 3)] ]] in
  getCellValue "B2" data 0 = Normal REF /\
  getCellValue "A3" data 0 = Normal REF /\
  getCellValue "A1" data 1 = Normal REF /\
  getCellValue "A1" data (-1) = Normal REF /\
  getCellValue "1A" data 0 = Normal REF /\
  getCellValue "A0" data 0 = Normal REF /\
  getCellValue "A2" data 0 = Normal (VNum 3).
Proof. repeat split; reflexivity. Qed.

(** C10: for a cell whose [resolvedValue] is not set, [getCellValue]
    returns the cell's raw value unchanged, whatever it is (a formula text
    included), and so does the evaluator on a [cell] node: no formula of the
    referenced cell is evaluated. *)
Theorem getCellValue_unresolved_is_raw `{Host} (ref : string) (data : Workbook)
    (tableIndex : Z) (cellRef : CellRef) (cell : CellData) :
  parseCellReference ref = Some cellRef ->
  optionalCell (index data tableIndex) (row cellRef) (col cellRef) = Some cell ->
  resolvedValue cell = VUndefined ->
  getCellValue ref data tableIndex = Normal (value cell) /\
  evaluateAst (Cell ref None) data tableIndex = value cell.
Proof.
  intros Hparse Hcell Hunset.
  assert (Hget : getCellValue ref data tableIndex = Normal (value cell)).
  { unfold getCellValue. rewrite Hparse.
    unfold optionalCell in Hcell.
    destruct (index data tableIndex) as [table|] eqn:Htable; [|discriminate].
    apply index_Some_bounds in Htable.
    destruct (Z.of_nat (List.length data) <=? tableIndex) eqn:Hlen;
      [apply Z.leb_le in Hlen; lia |].
    simpl.
    destruct (index table (row cellRef)) as [cells|]; [|discriminate]. simpl.
    rewrite Hcell. simpl. unfold currentValue. rewrite Hunset. reflexivity. }
  split; [exact Hget |].
  simpl. unfold effectiveTable. rewrite Hget. reflexivity.
Qed.

Lemma getCellValue_unresolved_is_raw_witness :
  getCellValue "A1" [[ [rawCell (VStr "=1+2")] ]] 0 = Normal (VStr "=1+2") /\
  evaluateAst (H := ExampleHost.exampleHost) (Cell "A1" None)
              [[ [rawCell (VStr "=1+2")] ]] 0 = VStr "=1+2".
Proof.
  apply (getCellValue_unresolved_is_raw (H := ExampleHost.exampleHost)
           "A1" [[ [rawCell (VStr "=1+2")] ]] 0
           (mkCellRef 0 0 false false) (rawCell (VStr "=1+2")));
    reflexivity.
Defined.

(** ** The evaluator *)

(** C6, as amended: on a null node [evaluateAst] returns [null] (the guard
    [if (!ast) return null] in front of the [try]); on a node whose tag is
    none of operation, function, cell, range and literal it returns
    [#ERROR!]. *)
Theorem evaluateAst_null_and_unknown_tag `{Host} (allTables : Workbook)
    (currentTableIndex : Z) :
  evaluateAst Null allTables currentTableIndex = VNull /\
  forall type : string, evaluateAst (Other type) allTables currentTableIndex = ERROR.
Proof. split; [reflexivity | intros type; reflexivity]. Qed.

(** C6, as stated, fails on the null node: the value is [null], which is
    not the sentinel. *)
Lemma evaluateAst_null_is_not_ERROR :
  evaluateAst (H := ExampleHost.exampleHost) Null [] 0 = VNull /\ VNull <> ERROR.
Proof. split; [reflexivity | discriminate]. Qed.

(** An unknown operator and an unknown function name end in [#ERROR!] too,
    through the same [catch]. *)
Lemma evaluateAst_unknown_function `{Host} (name : string) (arguments : list Ast)
    (allTables : Workbook) (currentTableIndex : Z) :
  inFunctions name = false ->
  ~ In name objectPrototypeNames ->
  evaluateAst (Function name arguments) allTables currentTableIndex = ERROR.
Proof. intros Hname _. simpl. rewrite Hname. reflexivity. Qed.

(** A call on a set the key is not in: the key is added, and taken out
    again only when the parser returned. *)
Lemma evaluateFormula_not_visited `{Host} (formula : string) (allTables : Workbook)
    (currentTableIndex : Z) (visited : gset string) :
  startsWithEq formula = true ->
  formulaKey currentTableIndex formula ∉ visited ->
  evaluateFormula formula allTables currentTableIndex visited =
    match parse formula with
    | Throw _ => (ERROR, visited ∪ {[formulaKey currentTableIndex formula]})
    | Normal ast => (evaluateAst ast allTables currentTableIndex, visited)
    end.
Proof.
  intros Hformula Hfresh. unfold evaluateFormula. rewrite Hformula. simpl.
  destruct (decide (formulaKey currentTableIndex formula ∈ visited)) as [Hin | _];
    [contradiction |].
  destruct (parse formula) as [ast | message]; [| reflexivity].
  f_equal. set_solver.
Qed.

Lemma raisesInTry_ERROR `{Host} (ast : Ast) (allTables : Workbook)
    (currentTableIndex : Z) :
  raisesInTry allTables currentTableIndex ast ->
  evaluateAst ast allTables currentTableIndex = ERROR.
Proof.
  intros [type | name arguments Hname _ | operator astLeft astRight Hop Hleft Hright].
  - reflexivity.
  - simpl. rewrite Hname. reflexivity.
  - simpl. rewrite Hleft, Hright. simpl.
    destruct (String.eqb operator "+") eqn:E1;
      [apply String.eqb_eq in E1; exfalso; apply Hop; simpl; auto |].
    destruct (String.eqb operator "-") eqn:E2;
      [apply String.eqb_eq in E2; exfalso; apply Hop; simpl; auto |].
    destruct (String.eqb operator "*") eqn:E3;
      [apply String.eqb_eq in E3; exfalso; apply Hop; simpl; auto |].
    destruct (String.eqb operator "/") eqn:E4;
      [apply String.eqb_eq in E4; exfalso; apply Hop; simpl; auto 6 |].
    destruct (String.eqb operator "^") eqn:E5;
      [apply String.eqb_eq in E5; exfalso; apply Hop; simpl; auto 6 |].
    reflexivity.
Qed.

(** C5, as amended: on a formula (a text starting with "=") whose key is
    not in the in-progress set, [evaluateFormula] adds the key; when the
    parser throws, the result is [#ERROR!] and the key stays in the set;
    when the parser returns a tree (an ordinary one: ranges with safe
    corners, no function name inherited from [Object.prototype]), the
    result is the tree's value and the key is removed, which leaves the set
    as it was.  An exception raised while the tree is evaluated (unknown
    tag, unknown function, unknown operator) belongs to the second case:
    [evaluateAst] catches it itself and returns [#ERROR!], and the key is
    removed. *)
Theorem evaluateFormula_key_removal `{Host} (formula : string) (allTables : Workbook)
    (currentTableIndex : Z) (visited : gset string) :
  startsWithEq formula = true ->
  formulaKey currentTableIndex formula ∉ visited ->
  (forall message : string,
      parse formula = Throw message ->
      evaluateFormula formula allTables currentTableIndex visited
        = (ERROR, visited ∪ {[formulaKey currentTableIndex formula]}) /\
      formulaKey currentTableIndex formula
        ∈ snd (evaluateFormula formula allTables currentTableIndex visited)) /\
  (forall ast : Ast,
      parse formula = Normal ast ->
      ordinaryAst ast ->
      evaluateFormula formula allTables currentTableIndex visited
        = (evaluateAst ast allTables currentTableIndex,
           (visited ∪ {[formulaKey currentTableIndex formula]})
             ∖ {[formulaKey currentTableIndex formula]}) /\
      snd (evaluateFormula formula allTables currentTableIndex visited) = visited /\
      formulaKey currentTableIndex formula
        ∉ snd (evaluateFormula formula allTables currentTableIndex visited)) /\
  (forall ast : Ast,
      parse formula = Normal ast ->
      ordinaryAst ast ->
      raisesInTry allTables currentTableIndex ast ->
      evaluateFormula formula allTables currentTableIndex visited = (ERROR, visited) /\
      formulaKey currentTableIndex formula
        ∉ snd (evaluateFormula formula allTables currentTableIndex visited)).
Proof.
  intros Hformula Hfresh.
  pose proof (evaluateFormula_not_visited formula allTables currentTableIndex visited
                Hformula Hfresh) as Heval.
  split; [| split].
  - intros message Hparse. rewrite Hparse in Heval. rewrite Heval. simpl.
    split; [reflexivity | set_solver].
  - intros ast Hparse _. rewrite Hparse in Heval. rewrite Heval. simpl.
    split; [| split; [reflexivity | exact Hfresh]].
    f_equal. set_solver.
  - intros ast Hparse _ Hraises. rewrite Hparse in Heval. rewrite Heval. simpl.
    rewrite (raisesInTry_ERROR ast allTables currentTableIndex Hraises).
    split; [reflexivity | exact Hfresh].
Qed.

Lemma evaluateFormula_key_removal_witness :
  (evaluateFormula (H := ExampleHost.exampleHost) "=1+" [] 0 ∅
     = (ERROR, ∅ ∪ {[formulaKey 0 "=1+"]}) /\
   formulaKey 0 "=1+"
     ∈ snd (evaluateFormula (H := ExampleHost.exampleHost) "=1+" [] 0 ∅)) /\
  (evaluateFormula (H := ExampleHost.exampleHost) "=1+2" [] 0 ∅
     = (VNum 3, (∅ ∪ {[formulaKey 0 "=1+2"]}) ∖ {[formulaKey 0 "=1+2"]}) /\
   snd (evaluateFormula (H := ExampleHost.exampleHost) "=1+2" [] 0 ∅) = ∅ /\
   formulaKey 0 "=1+2"
     ∉ snd (evaluateFormula (H := ExampleHost.exampleHost) "=1+2" [] 0 ∅)) /\
  (evaluateFormula (H := ExampleHost.exampleHost) "=FOO(1)" [] 0 ∅ = (ERROR, ∅) /\
   formulaKey 0 "=FOO(1)"
     ∉ snd (evaluateFormula (H := ExampleHost.exampleHost) "=FOO(1)" [] 0 ∅)).
Proof.
  split; [| split].
  - apply (proj1 (evaluateFormula_key_removal (H := ExampleHost.exampleHost)
                    "=1+" [] 0 ∅ eq_refl (not_elem_of_empty _)) "SyntaxError").
    reflexivity.
  - apply (proj1 (proj2 (evaluateFormula_key_removal (H := ExampleHost.exampleHost)
                           "=1+2" [] 0 ∅ eq_refl (not_elem_of_empty _)))
             (Operation "+" (Literal (VNum 1)) (Literal (VNum 2)))).
    + reflexivity.
    + simpl. auto.
  - apply (proj2 (proj2 (evaluateFormula_key_removal (H := ExampleHost.exampleHost)
                           "=FOO(1)" [] 0 ∅ eq_refl (not_elem_of_empty _)))
             (Function "FOO" [Literal (VNum 1)])).
    + reflexivity.
    + simpl. split; [| auto]. intros Hin.
      repeat (destruct Hin as [Hin | Hin]; [discriminate Hin |]). exact Hin.
    + apply (raises_unknown_function (H := ExampleHost.exampleHost)).
      * reflexivity.
      * intros Hin. simpl in Hin.
        repeat (destruct Hin as [Hin | Hin]; [discriminate Hin |]). exact Hin.
Defined.

(** C5, as stated, fails when the exception is raised during the
    evaluation of the tree: on a formula that calls an unknown function the
    result is [#ERROR!] and the key is not left in the set. *)
Lemma evaluateFormula_unknown_function_removes_key :
  parse (Host := ExampleHost.exampleHost) "=FOO(1)"
    = Normal (Function "FOO" [Literal (VNum 1)]) /\
  inFunctions "FOO" = false /\
  evaluateFormula (H := ExampleHost.exampleHost) "=FOO(1)" [] 0 ∅ = (ERROR, ∅) /\
  formulaKey 0 "=FOO(1)" ∉ (∅ : gset string).
Proof.
  split; [reflexivity | split; [reflexivity | split]].
  - rewrite evaluateFormula_not_visited by (reflexivity || apply not_elem_of_empty).
    reflexivity.
  - apply not_elem_of_empty.
Qed.

(** ** The function library *)

(** X13: the static [SUM] skips what does not coerce to a number: it is
    the left-to-right sum of the numeric subset of its values. *)
Lemma static_SUM_skips_non_numeric `{Host} (values : list Value) :
  StaticExcelFunctions.SUM values
  = VNum (fold_left (fun sum val => (sum + val)%float)
                    (ExcelFunctions.numbersOf values) 0%float).
Proof.
  unfold StaticExcelFunctions.SUM, ExcelFunctions.numbersOf. f_equal.
  generalize 0%float as acc.
  induction values as [| v values IH]; intros acc; simpl; [reflexivity |].
  destruct (is_nan (toNumber v)); simpl; apply IH.
Qed.

(** C9: [AVERAGE] of an empty value list is 0, and [MAX] and [MIN] of a
    value list whose numeric subset is empty are [#ERROR!]; this holds for
    the static functions, for the instance functions of the library (on
    arguments that flatten to such a list), and for the engine's dispatch
    on an empty argument list. *)
Theorem AVERAGE_empty_MAX_MIN_no_numbers `{Host} (values : list Value)
    (args : list Ast) (allTables : Workbook) (currentTableIndex : Z) :
  ExcelFunctions.numbersOf values = [] ->
  ExcelFunctions.getFunctionArgValues args allTables currentTableIndex = Normal values ->
  (StaticExcelFunctions.AVERAGE [] = VNum 0 /\
   StaticExcelFunctions.MAX values = ERROR /\
   StaticExcelFunctions.MIN values = ERROR) /\
  (ExcelFunctions.AVERAGE [] allTables currentTableIndex = Normal (VNum 0) /\
   ExcelFunctions.MAX args allTables currentTableIndex = Normal ERROR /\
   ExcelFunctions.MIN args allTables currentTableIndex = Normal ERROR) /\
  (evaluateAst (Function "AVERAGE" []) allTables currentTableIndex = VNum 0 /\
   evaluateAst (Function "MAX" []) allTables currentTableIndex = ERROR /\
   evaluateAst (Function "MIN" []) allTables currentTableIndex = ERROR).
Proof.
  intros Hnone Hflat.
  split; [| split].
  - unfold StaticExcelFunctions.MAX, StaticExcelFunctions.MIN.
    unfold ExcelFunctions.numbersOf in Hnone. rewrite Hnone.
    repeat split; reflexivity.
  - unfold ExcelFunctions.MAX, ExcelFunctions.MIN. rewrite Hflat. simpl.
    rewrite Hnone. repeat split; reflexivity.
  - repeat split; reflexivity.
Qed.

Lemma AVERAGE_empty_MAX_MIN_no_numbers_witness :
  (StaticExcelFunctions.AVERAGE (H := ExampleHost.exampleHost) [] = VNum 0 /\
   StaticExcelFunctions.MAX (H := ExampleHost.exampleHost) [VStr "x"; VUndefined] = ERROR /\
   StaticExcelFunctions.MIN (H := ExampleHost.exampleHost) [VStr "x"; VUndefined] = ERROR) /\
  (ExcelFunctions.AVERAGE (H := ExampleHost.exampleHost) [] [] 0 = Normal (VNum 0) /\
   ExcelFunctions.MAX (H := ExampleHost.exampleHost)
     [Literal (VStr "x"); Literal VUndefined] [] 0 = Normal ERROR /\
   ExcelFunctions.MIN (H := ExampleHost.exampleHost)
     [Literal (VStr "x"); Literal VUndefined] [] 0 = Normal ERROR) /\
  (evaluateAst (H := ExampleHost.exampleHost) (Function "AVERAGE" []) [] 0 = VNum 0 /\
   evaluateAst (H := ExampleHost.exampleHost) (Function "MAX" []) [] 0 = ERROR /\
   evaluateAst (H := ExampleHost.exampleHost) (Function "MIN" []) [] 0 = ERROR).
Proof.
  apply (AVERAGE_empty_MAX_MIN_no_numbers (H := ExampleHost.exampleHost)
           [VStr "x"; VUndefined] [Literal (VStr "x"); Literal VUndefined] [] 0);
    reflexivity.
Defined.

(** [SUM] over a range that holds 1, "x" and 3 is 4: the range drops the
    text before the sum sees it. *)
Lemma functionSUM_mixed_range `{Host} :
  stringToNumber "x" = nan ->
  evaluateAst (Function "SUM" [Range "A1:A3" None])
              [[ [rawCell (VNum 1)]; [rawCell (VStr "x")]; [rawCell (VNum 3)] ]] 0
  = VNum 4.
Proof.
  intros Hx. simpl. unfold functions, functionSUM. simpl.
  unfold getRangeValues. simpl. rewrite Hx. reflexivity.
Qed.

(** C7: the engine's [SUM] on a single literal argument that is a text [s]
    (for instance "x") returns the text made of the printed 0 followed by
    [s] (in JavaScript, "0x"): the literal branch adds the value without
    coercing it, so a non-numeric literal is not skipped. *)
Theorem functionSUM_text_literal `{Host} (s : string) (allTables : Workbook)
    (currentTableIndex : Z) :
  functionSUM [Literal (VStr s)] allTables currentTableIndex
    = Normal (VStr (numberToString 0 +:+ s)) /\
  evaluateAst (Function "SUM" [Literal (VStr s)]) allTables currentTableIndex
    = VStr (numberToString 0 +:+ s).
Proof. split; reflexivity. Qed.

(** the same argument through the library's [SUM], which coerces and
    filters, gives 0 as soon as "x" does not read as a number *)
Lemma library_SUM_text_literal `{Host} (allTables : Workbook) (currentTableIndex : Z) :
  stringToNumber "x" = nan ->
  ExcelFunctions.SUM [Literal (VStr "x")] allTables currentTableIndex = Normal (VNum 0).
Proof.
  intros Hx. unfold ExcelFunctions.SUM, ExcelFunctions.numbersOf. simpl.
  rewrite Hx. reflexivity.
Qed.

Example functionSUM_examples :
  evaluateAst (H := ExampleHost.exampleHost) (Function "SUM" [Range "A1:A3" None])
              [[ [rawCell (VNum 1)]; [rawCell (VStr "x")]; [rawCell (VNum 3)] ]] 0
    = VNum 4 /\
  evaluateAst (H := ExampleHost.exampleHost) (Function "SUM" [Literal (VStr "x")]) [] 0
    = VStr "0x" /\
  ExcelFunctions.SUM (H := ExampleHost.exampleHost) [Literal (VStr "x")] [] 0
    = Normal (VNum 0).
Proof. repeat split; reflexivity. Qed.

(** C4: on the argument list made of the one cell reference A1 with the
    explicit table 1, evaluated in table 0, the engine's
    [getFunctionArgValues] reads table 0 (it ignores [tableId]) and the
    library's reads table 1: the two flattened lists differ. *)
Theorem getFunctionArgValues_differ_on_tableId `{Host} :
  FormulaEngine.getFunctionArgValues [Cell "A1" (Some 1)]
    [[ [rawCell (VNum 10)] ]; [ [rawCell (VNum 20)] ]] 0 = Normal [VNum 10] /\
  ExcelFunctions.getFunctionArgValues [Cell "A1" (Some 1)]
    [[ [rawCell (VNum 10)] ]; [ [rawCell (VNum 20)] ]] 0 = Normal [VNum 20].
Proof. split; reflexivity. Qed.

(** They differ as well on an argument that is neither a range, a cell nor
    a literal: the engine evaluates it, the library yields [undefined]. *)
Lemma getFunctionArgValues_differ_on_nested `{Host} :
  FormulaEngine.getFunctionArgValues
    [Operation "+" (Literal (VNum 1)) (Literal (VNum 2))] [] 0 = Normal [VNum 3] /\
  ExcelFunctions.getFunctionArgValues
    [Operation "+" (Literal (VNum 1)) (Literal (VNum 2))] [] 0 = Normal [VUndefined].
Proof. split; reflexivity. Qed.

(** X15: on argument lists made of literals and of ranges and cells
    without an explicit table, the engine's [getFunctionArgValues] and the
    library's give the same flattened list. *)
Lemma getFunctionArgValues_agree_without_tableId `{Host} (args : list Ast)
    (allTables : Workbook) (currentTableIndex : Z) :
  Forall (fun arg => match arg with
                     | Range _ None | Cell _ None | Literal _ => True
                     | _ => False
                     end) args ->
  FormulaEngine.getFunctionArgValues args allTables currentTableIndex
  = ExcelFunctions.getFunctionArgValues args allTables currentTableIndex.
Proof.
  intros Hargs.
  unfold FormulaEngine.getFunctionArgValues, getFunctionArgValuesWith,
    ExcelFunctions.getFunctionArgValues.
  match goal with
  | |- tryCatch (mbind _ ?m1) _ = mbind _ ?m2 => assert (Hmap : m1 = m2)
  end.
  { induction Hargs as [| arg args Harg _ IH]; [reflexivity |].
    simpl. rewrite IH.
    destruct arg as [| | | reference [t|] | reference [t|] | v |]; try contradiction;
      reflexivity. }
  rewrite Hmap. clear Hmap.
  match goal with
  | |- tryCatch (mbind _ ?m) _ = _ => destruct m
  end; reflexivity.
Qed.

(** ** References to formula cells *)

(** C1: in a workbook whose table 0 holds at row 0, column 0 a cell with
    the raw value "=A1" (not resolved yet, as when the orchestrator reaches
    it), [evaluateFormula("=A1", tables, 0)] on a fresh visited set returns
    the text "=A1", not [#CIRCULAR!]: [getCellValue] hands back the raw
    value of the referenced cell and no evaluation is nested, so the visited
    set is never consulted a second time.  The parser's tree for "=A1" is
    the cell node A1, with no table or with table 0. *)
Theorem evaluateFormula_self_reference `{Host} (tableId : option Z) (cell : CellData)
    (cells : Row) (rows : Table) (others : Workbook) :
  parse "=A1" = Normal (Cell "A1" tableId) ->
  effectiveTable tableId 0 = 0 ->
  value cell = VStr "=A1" ->
  resolvedValue cell = VUndefined ->
  evaluateFormula "=A1" (((cell :: cells) :: rows) :: others) 0 ∅ = (VStr "=A1", ∅).
Proof.
  intros Hparse Htable Hvalue Hunset.
  rewrite evaluateFormula_not_visited by (reflexivity || apply not_elem_of_empty).
  rewrite Hparse. f_equal.
  simpl. rewrite Htable. unfold getCellValue. simpl.
  destruct (Z.pos (Pos.of_succ_nat (List.length others)) <=? 0) eqn:Hlen;
    [apply Z.leb_le in Hlen; lia |].
  simpl. unfold currentValue. rewrite Hunset. exact Hvalue.
Qed.

Lemma evaluateFormula_self_reference_witness :
  evaluateFormula (H := ExampleHost.exampleHost) "=A1" [[ [rawCell (VStr "=A1")] ]] 0 ∅
  = (VStr "=A1", ∅).
Proof.
  apply (evaluateFormula_self_reference (H := ExampleHost.exampleHost)
           None (rawCell (VStr "=A1")) [] [] []);
    reflexivity.
Defined.

(** the orchestrator on that workbook stores the formula text as the
    cell's resolved value *)
Lemma processData_self_reference `{Host} :
  parse "=A1" = Normal (Cell "A1" None) ->
  stringToNumber "=A1" = nan ->
  tables (processData (DataArray [[ [rawCell (VStr "=A1")] ]]))
  = [[ [mkCell (VStr "=A1") true (VStr "=A1") (VStr "=A1") None VUndefined] ]].
Proof.
  intros Hparse Hnan.
  unfold processData, forEach. cbn -[evaluateFormula].
  unfold processCell. cbn -[evaluateFormula]. change (Z.of_nat 0) with 0.
  rewrite evaluateFormula_not_visited by (reflexivity || apply not_elem_of_empty).
  rewrite Hparse. unfold _convertToNumber, isNaN, getCellValue. simpl.
  rewrite Hnan. reflexivity.
Qed.

(** C2: [processData] stores for the referencing cell the value 3 when the
    referenced formula cell comes earlier in the iteration, and the formula
    text "=1+2" when it comes later; the referenced cell itself resolves to
    3 in both workbooks. *)
Theorem processData_reference_order `{Host} :
  parse "=A1" = Normal (Cell "A1" None) ->
  parse "=B1" = Normal (Cell "B1" None) ->
  parse "=1+2" = Normal (Operation "+" (Literal (VNum 1)) (Literal (VNum 2))) ->
  stringToNumber "=1+2" = nan ->
  (resolvedAt (processData referenceLast) 0 0 0 = Some (VNum 3) /\
   resolvedAt (processData referenceLast) 0 0 1 = Some (VNum 3)) /\
  (resolvedAt (processData referenceFirst) 0 0 1 = Some (VNum 3) /\
   resolvedAt (processData referenceFirst) 0 0 0 = Some (VStr "=1+2")).
Proof.
  intros HA1 HB1 Hsum Hnan.
  assert (Hfresh : forall formula allTables,
             startsWithEq formula = true ->
             evaluateFormula formula allTables 0 ∅ =
             match parse formula with
             | Throw _ => (ERROR, ∅ ∪ {[formulaKey 0 formula]})
             | Normal ast => (evaluateAst ast allTables 0, ∅)
             end).
  { intros formula allTables Hformula.
    apply evaluateFormula_not_visited; [exact Hformula | apply not_elem_of_empty]. }
  unfold resolvedAt, processData, referenceLast, referenceFirst, forEach.
  cbn -[evaluateFormula]. unfold processCell. cbn -[evaluateFormula].
  change (Z.of_nat 0) with 0.
  rewrite !Hfresh by reflexivity. rewrite HA1, HB1, Hsum.
  unfold _convertToNumber, isNaN, getCellValue. simpl.
  rewrite Hnan. repeat split; reflexivity.
Qed.

Lemma processData_reference_order_witness :
  (resolvedAt (processData (H := ExampleHost.exampleHost) referenceLast) 0 0 0
     = Some (VNum 3) /\
   resolvedAt (processData (H := ExampleHost.exampleHost) referenceLast) 0 0 1
     = Some (VNum 3)) /\
  (resolvedAt (processData (H := ExampleHost.exampleHost) referenceFirst) 0 0 1
     = Some (VNum 3) /\
   resolvedAt (processData (H := ExampleHost.exampleHost) referenceFirst) 0 0 0
     = Some (VStr "=1+2")).
Proof.
  apply (processData_reference_order (H := ExampleHost.exampleHost)); reflexivity.
Defined.

(** ** Further properties of the evaluator *)

(** A [cell] or [range] node that carries a [tableId] is resolved against
    that table, whatever the current table is. *)
Lemma evaluateAst_explicit_tableId `{Host} (reference : string) (tableId : Z)
    (allTables : Workbook) (currentTableIndex : Z) :
  evaluateAst (Cell reference (Some tableId)) allTables currentTableIndex
    = evaluateAst (Cell reference None) allTables tableId /\
  evaluateAst (Range reference (Some tableId)) allTables currentTableIndex
    = evaluateAst (Range reference None) allTables tableId.
Proof. split; reflexivity. Qed.

(** X9: a division whose left operand reads as a number and whose right
    operand reads as zero (+0 or -0) is [#DIV/0!], whatever the two
    subtrees are. *)
Lemma evaluateAst_division_by_zero `{Host} (astLeft astRight : Ast)
    (allTables : Workbook) (currentTableIndex : Z) :
  is_nan (toNumber (evaluateAst astLeft allTables currentTableIndex)) = false ->
  (toNumber (evaluateAst astRight allTables currentTableIndex) =? 0)%float = true ->
  evaluateAst (Operation "/" astLeft astRight) allTables currentTableIndex = DIV0.
Proof.
  intros Hleft Hzero. simpl. rewrite Hleft.
  assert (Hright : is_nan (toNumber (evaluateAst astRight allTables currentTableIndex)) = false).
  { unfold is_nan.
    rewrite FloatAxioms.eqb_spec in Hzero. rewrite FloatAxioms.eqb_spec.
    change (Prim2SF 0) with (S754_zero false) in Hzero.
    destruct (Prim2SF (toNumber (evaluateAst astRight allTables currentTableIndex)))
      as [sg | sg | | sg m e]; try reflexivity; try discriminate;
      destruct sg; discriminate. }
  rewrite Hright. simpl. rewrite Hzero. reflexivity.
Qed.

Example evaluateFormula_one_over_zero :
  evaluateFormula (H := ExampleHost.exampleHost) "=1/0" [] 0 ∅ = (DIV0, ∅).
Proof.
  rewrite evaluateFormula_not_visited by (reflexivity || apply not_elem_of_empty).
  reflexivity.
Qed.

(** A sentinel that reaches an arithmetic node becomes [#ERROR!] there, as
    soon as it does not read as a number. *)
Lemma evaluateAst_sentinel_cascade `{Host} (operator : string) (astLeft astRight : Ast)
    (allTables : Workbook) (currentTableIndex : Z) :
  is_nan (toNumber (evaluateAst astLeft allTables currentTableIndex)) = true ->
  evaluateAst (Operation operator astLeft astRight) allTables currentTableIndex = ERROR.
Proof. intros Hleft. simpl. rewrite Hleft. reflexivity. Qed.

(** ** One step of the orchestrator *)

Lemma getCell_setCell (tables : Workbook) (t r c : nat) (old new : CellData) :
  getCell tables t r c = Some old ->
  getCell (setCell tables t r c new) t r c = Some new.
Proof.
  unfold getCell, setCell, Workbook, Table, Row in *. intros Hold.
  destruct (tables !! t) as [rows|] eqn:Ht; [| discriminate]. simpl in Hold.
  destruct (rows !! r) as [cells|] eqn:Hr; [| discriminate]. simpl in Hold.
  rewrite list_lookup_alter_eq, Ht. simpl.
  rewrite list_lookup_alter_eq, Hr. simpl.
  apply list_lookup_insert_eq. eapply lookup_lt_Some. exact Hold.
Qed.

(** What the orchestrator stores for a formula cell whose formula is a
    plain reference: the value [getCellValue] finds in the workbook as it
    is at that moment, that is the referenced cell's resolved value when it
    was processed before, and its raw value otherwise. *)
Lemma processCell_reference `{Host} (result : Result) (t r c : nat) (cell : CellData)
    (formula reference : string) (tableId : option Z) (v : Value) :
  getCell (tables result) t r c = Some cell ->
  isFormula (value cell) = Some formula ->
  parse formula = Normal (Cell reference tableId) ->
  getCellValue reference (tables result) (effectiveTable tableId (Z.of_nat t)) = Normal v ->
  resolvedAt (processCell result t r c cell) t r c = Some (_convertToNumber v).
Proof.
  intros Hcell Hformula Hparse Hvalue.
  assert (Hstart : startsWithEq formula = true).
  { unfold isFormula in Hformula. destruct (value cell); try discriminate.
    destruct (startsWithEq s) eqn:E; [| discriminate].
    injection Hformula as <-. exact E. }
  unfold resolvedAt, processCell. rewrite Hformula.
  rewrite evaluateFormula_not_visited by (exact Hstart || apply not_elem_of_empty).
  rewrite Hparse. cbn [tables fst evaluateAst tryCatchReturn]. rewrite Hvalue.
  erewrite getCell_setCell by exact Hcell.
  unfold applyFormat. simpl.
  destruct (excelFormat cell) as [[| ch rest] |]; reflexivity.
Qed.

(** * Further coverage *)

(** ** Characters and strings *)

Lemma upperChar_idempotent (c : ascii) : upperChar (upperChar c) = upperChar c.
Proof. destruct c as [[] [] [] [] [] [] [] []]; reflexivity. Qed.

Lemma isLetter_upperChar (c : ascii) : isLetter (upperChar c) = isLetter c.
Proof. destruct c as [[] [] [] [] [] [] [] []]; reflexivity. Qed.

Lemma isDigit_upperChar (c : ascii) : isDigit (upperChar c) = isDigit c.
Proof. destruct c as [[] [] [] [] [] [] [] []]; reflexivity. Qed.

Lemma upperChar_digit (c : ascii) : isDigit c = true -> upperChar c = c.
Proof. destruct c as [[] [] [] [] [] [] [] []]; try discriminate; reflexivity. Qed.

Lemma upperChar_dollar (c : ascii) : upperChar c = "$"%char <-> c = "$"%char.
Proof.
  destruct c as [[] [] [] [] [] [] [] []]; split; intros E;
    try reflexivity; try discriminate.
Qed.

Lemma upperChar_colon (c : ascii) : upperChar c = ":"%char <-> c = ":"%char.
Proof.
  destruct c as [[] [] [] [] [] [] [] []]; split; intros E;
    try reflexivity; try discriminate.
Qed.

Lemma isLetter_not_dollar (c : ascii) : isLetter c = true -> c <> "$"%char.
Proof. intros Hc ->. discriminate. Qed.

Lemma isDigit_not_dollar (c : ascii) : isDigit c = true -> c <> "$"%char.
Proof. intros Hc ->. discriminate. Qed.

Lemma isDigit_not_letter (c : ascii) : isDigit c = true -> isLetter c = false.
Proof. destruct c as [[] [] [] [] [] [] [] []]; try discriminate; reflexivity. Qed.

Lemma upper_letter_value (c : ascii) :
  isLetter c = true ->
  0 <= Z.of_nat (nat_of_ascii (upperChar c)) - Z.of_nat (nat_of_ascii "A") <= 25.
Proof.
  destruct c as [[] [] [] [] [] [] [] []]; try discriminate; intros _; vm_compute;
    split; discriminate.
Qed.

Lemma digit_value (c : ascii) :
  isDigit c = true -> 0 <= Z.of_nat (nat_of_ascii c) - 48 <= 9.
Proof.
  destruct c as [[] [] [] [] [] [] [] []]; try discriminate; intros _; vm_compute;
    split; discriminate.
Qed.

Lemma toUpperCase_idempotent (s : string) : toUpperCase (toUpperCase s) = toUpperCase s.
Proof.
  induction s as [| c s IH]; simpl; [reflexivity |].
  rewrite upperChar_idempotent, IH. reflexivity.
Qed.

Lemma toUpperCase_app (s1 s2 : string) :
  toUpperCase (s1 +:+ s2) = toUpperCase s1 +:+ toUpperCase s2.
Proof. induction s1 as [| c s1 IH]; simpl; [reflexivity | rewrite IH; reflexivity]. Qed.

Lemma toUpperCase_digits (s : string) : allChars isDigit s = true -> toUpperCase s = s.
Proof.
  unfold allChars. induction s as [| c s IH]; simpl; [reflexivity |].
  intros H. apply andb_prop in H as [Hc Hs].
  rewrite upperChar_digit by exact Hc. rewrite IH by exact Hs. reflexivity.
Qed.

Lemma spanChars_app (p : ascii -> bool) (s : string) :
  fst (spanChars p s) +:+ snd (spanChars p s) = s.
Proof.
  induction s as [| c s IH]; simpl; [reflexivity |].
  destruct (p c); [| reflexivity].
  destruct (spanChars p s) as [taken remaining]. simpl in *.
  change (String c (taken +:+ remaining) = String c s). rewrite IH. reflexivity.
Qed.

Lemma spanChars_taken (p : ascii -> bool) (s : string) :
  allChars p (fst (spanChars p s)) = true.
Proof.
  unfold allChars. induction s as [| c s IH]; simpl; [reflexivity |].
  destruct (p c) eqn:Hc; [| reflexivity].
  destruct (spanChars p s) as [taken remaining]. simpl in *. rewrite Hc, IH. reflexivity.
Qed.

Lemma spanChars_remaining (p : ascii -> bool) (s : string) :
  match snd (spanChars p s) with
  | EmptyString => True
  | String c _ => p c = false
  end.
Proof.
  induction s as [| c s IH]; simpl; [exact I |].
  destruct (p c) eqn:Hc; [| exact Hc].
  destruct (spanChars p s) as [taken remaining]. exact IH.
Qed.

Lemma spanChars_exact (p : ascii -> bool) (taken remaining : string) :
  allChars p taken = true ->
  match remaining with
  | EmptyString => True
  | String c _ => p c = false
  end ->
  spanChars p (taken +:+ remaining) = (taken, remaining).
Proof.
  unfold allChars. intros Htaken Hrem.
  induction taken as [| c taken IH]; simpl in *.
  - destruct remaining as [| c remaining]; [reflexivity |]. simpl. rewrite Hrem. reflexivity.
  - apply andb_prop in Htaken as [Hc Ht]. rewrite Hc, (IH Ht). reflexivity.
Qed.

Lemma spanChars_toUpperCase (p : ascii -> bool) (s : string) :
  (forall c, p (upperChar c) = p c) ->
  spanChars p (toUpperCase s)
  = (toUpperCase (fst (spanChars p s)), toUpperCase (snd (spanChars p s))).
Proof.
  intros Hp. induction s as [| c s IH]; simpl; [reflexivity |].
  rewrite Hp. destruct (p c); [| reflexivity].
  rewrite IH. destruct (spanChars p s) as [taken remaining]. reflexivity.
Qed.

Lemma optionalDollar_toUpperCase (s : string) :
  optionalDollar (toUpperCase s)
  = (fst (optionalDollar s), toUpperCase (snd (optionalDollar s))).
Proof.
  destruct s as [| c s]; [reflexivity |].
  destruct c as [[] [] [] [] [] [] [] []]; reflexivity.
Qed.

Lemma optionalDollar_app (s : string) :
  fst (optionalDollar s) +:+ snd (optionalDollar s) = s.
Proof.
  destruct s as [| c s]; [reflexivity |].
  destruct c as [[] [] [] [] [] [] [] []]; reflexivity.
Qed.

Lemma optionalDollar_flag (s : string) :
  fst (optionalDollar s) = "$" \/ fst (optionalDollar s) = EmptyString.
Proof.
  destruct s as [| c s]; [right; reflexivity |].
  destruct c as [[] [] [] [] [] [] [] []]; (left; reflexivity) || (right; reflexivity).
Qed.

Lemma optionalDollar_none (s : string) :
  match s with
  | EmptyString => True
  | String c _ => c <> "$"%char
  end ->
  optionalDollar s = (EmptyString, s).
Proof.
  destruct s as [| c s]; [reflexivity |]. intros Hc.
  destruct c as [[] [] [] [] [] [] [] []]; try reflexivity. contradiction Hc. reflexivity.
Qed.

Lemma columnLoop_nonneg (s : string) (column : Z) :
  allChars isLetter s = true -> 0 <= column -> 0 <= columnLoop (toUpperCase s) column.
Proof.
  unfold allChars. revert column.
  induction s as [| c s IH]; simpl; intros column Hs Hcolumn; [exact Hcolumn |].
  apply andb_prop in Hs as [Hc Hs].
  apply IH; [exact Hs |].
  pose proof (upper_letter_value c Hc) as Hv. lia.
Qed.

Lemma parseDigits_nonneg (s : string) (acc : Z) :
  allChars isDigit s = true -> 0 <= acc -> 0 <= parseDigits s acc.
Proof.
  unfold allChars. revert acc.
  induction s as [| c s IH]; simpl; intros acc Hs Hacc; [exact Hacc |].
  apply andb_prop in Hs as [Hc Hs].
  apply IH; [exact Hs |].
  pose proof (digit_value c Hc) as Hv. lia.
Qed.

(** ** The reference grammar *)

Lemma append_empty_r (s : string) : s +:+ EmptyString = s.
Proof.
  induction s as [| c s IH]; [reflexivity |].
  change (String c (s +:+ EmptyString) = String c s). rewrite IH. reflexivity.
Qed.

Lemma allChars_head (p : ascii -> bool) (c : ascii) (s : string) :
  allChars p (String c s) = true -> p c = true.
Proof. unfold allChars. simpl. intros H. apply andb_prop in H as [Hc _]. exact Hc. Qed.

Lemma parseCellReference_shape (ref : string) (cellRef : CellRef) :
  parseCellReference ref = Some cellRef ->
  exists colStr rowStr : string,
    colStr <> EmptyString /\ allChars isLetter colStr = true /\
    rowStr <> EmptyString /\ allChars isDigit rowStr = true /\
    ref = dollar (isAbsoluteCol cellRef) +:+ colStr
          +:+ dollar (isAbsoluteRow cellRef) +:+ rowStr /\
    col cellRef = columnLoop (toUpperCase colStr) 0 /\
    row cellRef = parseInt rowStr - 1.
Proof.
  unfold parseCellReference.
  pose proof (optionalDollar_app ref) as Href.
  pose proof (optionalDollar_flag ref) as HcolAbs.
  destruct (optionalDollar ref) as [colAbs s1]. simpl in Href, HcolAbs.
  pose proof (spanChars_app isLetter s1) as Hs1.
  pose proof (spanChars_taken isLetter s1) as Hletters.
  destruct (spanChars isLetter s1) as [colStr s2]. simpl in Hs1, Hletters.
  pose proof (optionalDollar_app s2) as Hs2.
  pose proof (optionalDollar_flag s2) as HrowAbs.
  destruct (optionalDollar s2) as [rowAbs s3]. simpl in Hs2, HrowAbs.
  pose proof (spanChars_app isDigit s3) as Hs3.
  pose proof (spanChars_taken isDigit s3) as Hdigits.
  destruct (spanChars isDigit s3) as [rowStr rest]. simpl in Hs3, Hdigits.
  destruct colStr as [| c colStr]; [discriminate |].
  destruct rowStr as [| d rowStr]; [discriminate |].
  destruct rest as [| e rest]; [| discriminate].
  intros Hsome. injection Hsome as <-. simpl.
  exists (String c colStr), (String d rowStr).
  repeat split; try discriminate; try assumption.
  rewrite append_empty_r in Hs3. subst s3 s2 s1 ref.
  destruct HcolAbs as [-> | ->], HrowAbs as [-> | ->]; reflexivity.
Qed.

Lemma parseCellReference_accepts (colAbs rowAbs : bool) (colStr rowStr : string) :
  colStr <> EmptyString -> allChars isLetter colStr = true ->
  rowStr <> EmptyString -> allChars isDigit rowStr = true ->
  parseCellReference (dollar colAbs +:+ colStr +:+ dollar rowAbs +:+ rowStr)
  = Some {| col := columnLoop (toUpperCase colStr) 0;
            row := parseInt rowStr - 1;
            isAbsoluteCol := colAbs;
            isAbsoluteRow := rowAbs |}.
Proof.
  intros HcolNE Hletters HrowNE Hdigits.
  destruct colStr as [| c colStr]; [contradiction |].
  destruct rowStr as [| d rowStr]; [contradiction |].
  pose proof (allChars_head _ _ _ Hletters) as Hc.
  pose proof (allChars_head _ _ _ Hdigits) as Hd.
  assert (Hfirst : optionalDollar (dollar colAbs +:+ String c colStr
                                   +:+ dollar rowAbs +:+ String d rowStr)
                   = (dollar colAbs, String c colStr +:+ dollar rowAbs +:+ String d rowStr)).
  { destruct colAbs; [reflexivity |]. simpl.
    apply (optionalDollar_none (String c _)). apply isLetter_not_dollar. exact Hc. }
  assert (Hsecond : optionalDollar (dollar rowAbs +:+ String d rowStr)
                    = (dollar rowAbs, String d rowStr)).
  { destruct rowAbs; [reflexivity |]. simpl.
    apply (optionalDollar_none (String d _)). apply isDigit_not_dollar. exact Hd. }
  unfold parseCellReference. rewrite Hfirst.
  assert (Hstop : match dollar rowAbs +:+ String d rowStr with
                  | EmptyString => True
                  | String e _ => isLetter e = false
                  end).
  { destruct rowAbs; simpl; [reflexivity | apply isDigit_not_letter; exact Hd]. }
  rewrite (spanChars_exact isLetter (String c colStr) (dollar rowAbs +:+ String d rowStr)
             Hletters Hstop).
  rewrite Hsecond.
  rewrite <- (append_empty_r (String d rowStr)) at 1.
  rewrite (spanChars_exact isDigit (String d rowStr) EmptyString Hdigits I).
  destruct colAbs, rowAbs; reflexivity.
Qed.

(** X1: [parseCellReference] accepts exactly the texts made of an optional
    "$", one or more ASCII letters, an optional "$" and one or more decimal
    digits; and a coordinate whose column and row number are safe integers
    (below 2^53) is returned exactly on the texts whose letters have it as
    base-26 value (A as digit 0), whose number is the row plus one, and
    whose "$" signs are the two flags. *)
Theorem parseCellReference_grammar (ref : string) (cellRef : CellRef) :
  (is_Some (parseCellReference ref) <->
   exists (colAbs rowAbs : bool) (colStr rowStr : string),
     colStr <> EmptyString /\ allChars isLetter colStr = true /\
     rowStr <> EmptyString /\ allChars isDigit rowStr = true /\
     ref = dollar colAbs +:+ colStr +:+ dollar rowAbs +:+ rowStr) /\
  (safeCellRef cellRef ->
   (parseCellReference ref = Some cellRef <->
    exists colStr rowStr : string,
      colStr <> EmptyString /\ allChars isLetter colStr = true /\
      rowStr <> EmptyString /\ allChars isDigit rowStr = true /\
      ref = dollar (isAbsoluteCol cellRef) +:+ colStr
            +:+ dollar (isAbsoluteRow cellRef) +:+ rowStr /\
      col cellRef = columnLoop (toUpperCase colStr) 0 /\
      row cellRef = parseInt rowStr - 1)).
Proof.
  split.
  - split.
    + intros [found Hfound].
      apply parseCellReference_shape in Hfound
        as (colStr & rowStr & HcolNE & Hletters & HrowNE & Hdigits & Href & _).
      exists (isAbsoluteCol found), (isAbsoluteRow found), colStr, rowStr. auto.
    + intros (colAbs & rowAbs & colStr & rowStr & HcolNE & Hletters & HrowNE & Hdigits & ->).
      rewrite parseCellReference_accepts by assumption. eexists. reflexivity.
  - intros _. split; [apply parseCellReference_shape |].
    intros (colStr & rowStr & HcolNE & Hletters & HrowNE & Hdigits & -> & Hcol & Hrow).
    rewrite parseCellReference_accepts by assumption.
    destruct cellRef as [c r a b]. simpl in *. subst. reflexivity.
Qed.

Lemma parseCellReference_toUpperCase (ref : string) :
  parseCellReference (toUpperCase ref) = parseCellReference ref.
Proof.
  unfold parseCellReference.
  rewrite optionalDollar_toUpperCase.
  destruct (optionalDollar ref) as [colAbs s1]. simpl.
  rewrite (spanChars_toUpperCase isLetter) by apply isLetter_upperChar.
  destruct (spanChars isLetter s1) as [colStr s2]. simpl.
  rewrite optionalDollar_toUpperCase.
  destruct (optionalDollar s2) as [rowAbs s3]. simpl.
  rewrite (spanChars_toUpperCase isDigit) by apply isDigit_upperChar.
  pose proof (spanChars_taken isDigit s3) as Hdigits.
  destruct (spanChars isDigit s3) as [rowStr rest]. simpl in *.
  rewrite (toUpperCase_digits rowStr) by exact Hdigits.
  destruct colStr as [| c colStr]; [reflexivity |].
  destruct rowStr as [| d rowStr]; [reflexivity |].
  destruct rest as [| e rest]; [| reflexivity].
  change (toUpperCase (String c colStr)) with (String (upperChar c) (toUpperCase colStr)).
  cbv iota beta.
  change (String (upperChar c) (toUpperCase colStr)) with (toUpperCase (String c colStr)).
  rewrite toUpperCase_idempotent. reflexivity.
Qed.

(** X2: references are read the same in any letter case: on a text and on
    its upper-cased form [parseCellReference] gives the same coordinate,
    [getCellValue] the same value and [getRangeValues] the same list. *)
Theorem references_case_insensitive `{Host} (ref : string) (data : Workbook)
    (tableIndex : Z) :
  parseCellReference (toUpperCase ref) = parseCellReference ref /\
  getCellValue (toUpperCase ref) data tableIndex = getCellValue ref data tableIndex /\
  getRangeValues (toUpperCase ref) data tableIndex = getRangeValues ref data tableIndex.
Proof.
  split; [apply parseCellReference_toUpperCase |]. split.
  - unfold getCellValue. rewrite parseCellReference_toUpperCase. reflexivity.
  - unfold getRangeValues. rewrite toUpperCase_idempotent. reflexivity.
Qed.

(** X3: a parsed reference has a column that is not negative and a row
    that is at least -1; the row -1 is reached, by the row number 0. *)
Theorem parseCellReference_bounds (ref : string) (cellRef : CellRef) :
  parseCellReference ref = Some cellRef ->
  0 <= col cellRef /\ -1 <= row cellRef /\
  (row <$> parseCellReference "A0") = Some (-1).
Proof.
  intros Hparse.
  apply parseCellReference_shape in Hparse
    as (colStr & rowStr & _ & Hletters & _ & Hdigits & _ & -> & ->).
  split; [apply columnLoop_nonneg; [exact Hletters | lia] |].
  split; [| reflexivity].
  pose proof (parseDigits_nonneg rowStr 0 Hdigits ltac:(lia)) as Hrow.
  unfold parseInt. lia.
Qed.

Lemma parseCellReference_bounds_witness :
  0 <= 27 /\ -1 <= 11 /\ (row <$> parseCellReference "A0") = Some (-1).
Proof.
  apply (parseCellReference_bounds "$bb$12" (mkCellRef 27 11 true true)). reflexivity.
Defined.

(** ** Ranges *)

Lemma splitColon_toUpperCase (s : string) :
  splitColon (toUpperCase s)
  = (toUpperCase (fst (splitColon s)), toUpperCase <$> snd (splitColon s)).
Proof.
  induction s as [| c s IH]; [reflexivity |].
  destruct c as [[] [] [] [] [] [] [] []]; simpl; rewrite IH;
    destruct (splitColon s) as [first second]; reflexivity.
Qed.

Lemma splitColon_no_colon (s : string) :
  snd (splitColon s) = None -> fst (splitColon s) = s.
Proof.
  induction s as [| c s IH]; [reflexivity |].
  destruct c as [[] [] [] [] [] [] [] []]; simpl;
    destruct (splitColon s) as [first second]; simpl in *;
    intros Hnone; try discriminate; rewrite (IH Hnone); reflexivity.
Qed.

Lemma splitColon_join (a b : string) :
  snd (splitColon a) = None ->
  splitColon (a +:+ ":" +:+ b) = (a, Some (fst (splitColon b))).
Proof.
  induction a as [| c a IH]; [reflexivity |].
  destruct c as [[] [] [] [] [] [] [] []]; simpl;
    destruct (splitColon a) as [first second] eqn:Ha; simpl in *;
    intros Hnone; try discriminate; rewrite (IH Hnone); reflexivity.
Qed.

(** both corners of a range text made of two colon-free parts *)
Lemma splitColon_corners (a b : string) :
  snd (splitColon a) = None -> snd (splitColon b) = None ->
  splitColon (toUpperCase (a +:+ ":" +:+ b)) = (toUpperCase a, Some (toUpperCase b)).
Proof.
  intros Ha Hb. rewrite splitColon_toUpperCase, splitColon_join by exact Ha.
  simpl. rewrite (splitColon_no_colon b Hb). reflexivity.
Qed.

(** X4: the order of the two corners of a range does not matter: for two
    texts without a colon, the range written first:second and the range
    written second:first give the same result in every workbook. *)
Theorem getRangeValues_corner_order `{Host} (a b : string) (data : Workbook)
    (tableIndex : Z) :
  snd (splitColon a) = None ->
  snd (splitColon b) = None ->
  getRangeValues (a +:+ ":" +:+ b) data tableIndex
  = getRangeValues (b +:+ ":" +:+ a) data tableIndex.
Proof.
  intros Ha Hb. unfold getRangeValues.
  rewrite (splitColon_corners a b Ha Hb), (splitColon_corners b a Hb Ha).
  destruct (Z.of_nat (List.length data) <=? tableIndex); [reflexivity |].
  simpl.
  destruct (parseCellReference (toUpperCase a)) as [start |],
           (parseCellReference (toUpperCase b)) as [end_ |]; try reflexivity.
  rewrite (Z.min_comm (col end_)), (Z.max_comm (col end_)),
          (Z.min_comm (row end_)), (Z.max_comm (row end_)).
  reflexivity.
Qed.

Lemma getRangeValues_corner_order_witness :
  getRangeValues (H := ExampleHost.exampleHost) ("B2" +:+ ":" +:+ "a1")
    [[ [rawCell (VNum 1); rawCell (VNum 2)]; [rawCell (VNum 3); rawCell (VStr "x")] ]] 0
  = getRangeValues (H := ExampleHost.exampleHost) ("a1" +:+ ":" +:+ "B2")
    [[ [rawCell (VNum 1); rawCell (VNum 2)]; [rawCell (VNum 3); rawCell (VStr "x")] ]] 0.
Proof.
  apply (getRangeValues_corner_order (H := ExampleHost.exampleHost) "B2" "a1");
    reflexivity.
Defined.

(** X5: on a range whose corners are safe, [getRangeValues] returns
    either [null] or an array, and every element of the array is a number
    that is not NaN: texts, sentinels and empty cells of the rectangle never
    reach the caller. *)
Theorem getRangeValues_only_numbers `{Host} (range : string) (data : Workbook)
    (tableIndex : Z) :
  safeRange range ->
  getRangeValues range data tableIndex = VNull \/
  exists values : list Value,
    getRangeValues range data tableIndex = VArr values /\
    Forall (fun v => exists n : float, v = VNum n /\ is_nan n = false) values.
Proof.
  intros _. unfold getRangeValues.
  destruct (Z.of_nat (List.length data) <=? tableIndex); [left; reflexivity |].
  destruct (splitColon (toUpperCase range)) as [startRef [endRef |]];
    [| left; reflexivity].
  simpl.
  destruct (parseCellReference startRef) as [start |],
           (parseCellReference endRef) as [end_ |]; try (left; reflexivity).
  right. eexists. split; [reflexivity |].
  apply Forall_flat_map, Forall_forall. intros r _.
  apply Forall_flat_map, Forall_forall. intros c _.
  destruct (optionalCell (index data tableIndex) r c) as [cell |]; [| constructor].
  destruct (is_nan (toNumber (currentValue cell))) eqn:Hnan; constructor;
    [| constructor].
  eexists. split; [reflexivity | exact Hnan].
Qed.

Lemma getRangeValues_only_numbers_witness :
  getRangeValues (H := ExampleHost.exampleHost) "A1:B2"
    [[ [rawCell (VNum 1); rawCell (VStr "x")]; [rawCell VNull] ]] 0 = VNull \/
  exists values : list Value,
    getRangeValues (H := ExampleHost.exampleHost) "A1:B2"
      [[ [rawCell (VNum 1); rawCell (VStr "x")]; [rawCell VNull] ]] 0 = VArr values /\
    Forall (fun v => exists n : float, v = VNum n /\ is_nan n = false) values.
Proof.
  apply (getRangeValues_only_numbers (H := ExampleHost.exampleHost)).
  vm_compute. repeat split; reflexivity.
Defined.

(** X6: on a range whose corners are safe, [getRangeValues] returns
    [null] exactly when the table index is at or past the number of tables,
    when the text has no colon, or when one of its two corners (read after
    upper-casing) is not a reference. *)
Theorem getRangeValues_null_iff `{Host} (range : string) (data : Workbook)
    (tableIndex : Z) :
  safeRange range ->
  getRangeValues range data tableIndex = VNull <->
  (Z.of_nat (List.length data) <= tableIndex \/
   snd (splitColon (toUpperCase range)) = None \/
   parseCellReference (fst (splitColon (toUpperCase range))) = None \/
   exists endRef : string,
     snd (splitColon (toUpperCase range)) = Some endRef /\
     parseCellReference endRef = None).
Proof.
  intros _. unfold getRangeValues.
  destruct (Z.of_nat (List.length data) <=? tableIndex) eqn:Hlen.
  { apply Z.leb_le in Hlen. split; [intros _; left; exact Hlen | reflexivity]. }
  apply Z.leb_gt in Hlen.
  destruct (splitColon (toUpperCase range)) as [startRef [endRef |]]; simpl.
  2:{ split; [intros _; right; left; reflexivity | reflexivity]. }
  destruct (parseCellReference startRef) as [start |] eqn:Hstart,
           (parseCellReference endRef) as [end_ |] eqn:Hend; simpl.
  - split; [discriminate |].
    intros [Hbig | [Hnone | [Hbad | (e & He & Hbad)]]]; try discriminate; try lia.
    injection He as <-. congruence.
  - split; [| reflexivity]. intros _. right; right; right. exists endRef. auto.
  - split; [| reflexivity]. intros _. right; right; left. reflexivity.
  - split; [| reflexivity]. intros _. right; right; left. reflexivity.
Qed.

Lemma getRangeValues_null_iff_witness :
  getRangeValues (H := ExampleHost.exampleHost) "A1:2B" [[ [rawCell (VNum 1)] ]] 0 = VNull <->
  (Z.of_nat (List.length [[ [rawCell (VNum 1)] ]]) <= 0 \/
   snd (splitColon (toUpperCase "A1:2B")) = None \/
   parseCellReference (fst (splitColon (toUpperCase "A1:2B"))) = None \/
   exists endRef : string,
     snd (splitColon (toUpperCase "A1:2B")) = Some endRef /\
     parseCellReference endRef = None).
Proof.
  apply (getRangeValues_null_iff (H := ExampleHost.exampleHost)
           "A1:2B" [[ [rawCell (VNum 1)] ]] 0).
  exact I.
Defined.

Lemma flat_map_constant_nil {A B : Type} (f : A -> list B) (l : list A) :
  (forall a, f a = []) -> flat_map f l = [].
Proof.
  intros Hf. induction l as [| a l IH]; simpl; [reflexivity |].
  rewrite Hf, IH. reflexivity.
Qed.

(** X7: with a negative table index and two well-formed, safe corners,
    [getRangeValues] returns the empty array (the table is [undefined] and
    every cell of the rectangle is skipped), where [getCellValue] returns
    [#REF!]. *)
Theorem getRangeValues_negative_table `{Host} (a b : string) (data : Workbook)
    (tableIndex : Z) (start end_ : CellRef) :
  tableIndex < 0 ->
  snd (splitColon a) = None -> snd (splitColon b) = None ->
  parseCellReference a = Some start -> parseCellReference b = Some end_ ->
  safeCellRef start -> safeCellRef end_ ->
  getRangeValues (a +:+ ":" +:+ b) data tableIndex = VArr [] /\
  getCellValue a data tableIndex = Normal REF.
Proof.
  intros Hneg Ha Hb Hstart Hend _ _. split.
  - unfold getRangeValues. rewrite (splitColon_corners a b Ha Hb).
    destruct (Z.of_nat (List.length data) <=? tableIndex) eqn:Hlen;
      [apply Z.leb_le in Hlen; lia |].
    simpl. rewrite !parseCellReference_toUpperCase, Hstart, Hend.
    rewrite (index_None_negative data tableIndex Hneg). simpl.
    f_equal. apply flat_map_constant_nil. intros r.
    apply flat_map_constant_nil. intros c. reflexivity.
  - unfold getCellValue.
    destruct (Z.of_nat (List.length data) <=? tableIndex); [reflexivity |].
    rewrite Hstart, (index_None_negative data tableIndex Hneg). reflexivity.
Qed.

Lemma getRangeValues_negative_table_witness :
  getRangeValues (H := ExampleHost.exampleHost) ("A1" +:+ ":" +:+ "B2")
    [[ [rawCell (VNum 1)] ]] (-1) = VArr [] /\
  getCellValue "A1" [[ [rawCell (VNum 1)] ]] (-1) = Normal REF.
Proof.
  apply (getRangeValues_negative_table (H := ExampleHost.exampleHost) "A1" "B2"
           [[ [rawCell (VNum 1)] ]] (-1)
           (mkCellRef 0 0 false false) (mkCellRef 1 1 false false));
    try reflexivity; repeat split; reflexivity.
Defined.

(** ** Arithmetic nodes *)

Lemma evaluateAst_division_by_zero_witness :
  evaluateAst (H := ExampleHost.exampleHost)
    (Operation "/" (Literal (VNum 1)) (Literal (VStr "0"))) [] 0 = DIV0.
Proof.
  apply (evaluateAst_division_by_zero (H := ExampleHost.exampleHost)); reflexivity.
Defined.


(** ** The visited set of [evaluateFormula] *)

(** X10: [evaluateFormula] never touches another key than its own: the set
    it leaves contains the set it was given, and at most its own key
    besides. *)
Theorem evaluateFormula_visited_frame `{Host} (formula : string) (allTables : Workbook)
    (currentTableIndex : Z) (visited : gset string) :
  visited ⊆ snd (evaluateFormula formula allTables currentTableIndex visited) /\
  snd (evaluateFormula formula allTables currentTableIndex visited)
    ⊆ visited ∪ {[formulaKey currentTableIndex formula]}.
Proof.
  unfold evaluateFormula.
  destruct (startsWithEq formula); simpl; [| set_solver].
  destruct (decide (formulaKey currentTableIndex formula ∈ visited)) as [Hin | Hout];
    simpl; [set_solver |].
  destruct (parse formula); simpl; set_solver.
Qed.

(** X11: the key left behind by a failed parse makes the next evaluation
    of the same formula on that set answer [#CIRCULAR!] instead of
    [#ERROR!]; after a successful parse the set is as before and the second
    evaluation repeats the first. *)
Theorem evaluateFormula_second_call `{Host} (formula : string) (allTables : Workbook)
    (currentTableIndex : Z) (visited : gset string) :
  startsWithEq formula = true ->
  formulaKey currentTableIndex formula ∉ visited ->
  (forall message : string,
      parse formula = Throw message ->
      evaluateFormula formula allTables currentTableIndex
        (snd (evaluateFormula formula allTables currentTableIndex visited))
      = (CIRCULAR, visited ∪ {[formulaKey currentTableIndex formula]})) /\
  (forall ast : Ast,
      parse formula = Normal ast ->
      evaluateFormula formula allTables currentTableIndex
        (snd (evaluateFormula formula allTables currentTableIndex visited))
      = evaluateFormula formula allTables currentTableIndex visited).
Proof.
  intros Hformula Hfresh.
  pose proof (evaluateFormula_not_visited formula allTables currentTableIndex visited
                Hformula Hfresh) as Hfirst.
  split.
  - intros message Hparse. rewrite Hfirst, Hparse. simpl.
    unfold evaluateFormula. rewrite Hformula. simpl.
    destruct (decide (formulaKey currentTableIndex formula
                      ∈ visited ∪ {[formulaKey currentTableIndex formula]}))
      as [_ | Hout]; [reflexivity | set_solver].
  - intros ast Hparse. rewrite Hfirst, Hparse. simpl.
    rewrite Hfirst, Hparse. reflexivity.
Qed.

Lemma evaluateFormula_second_call_witness :
  evaluateFormula (H := ExampleHost.exampleHost) "=1+" [] 0
    (snd (evaluateFormula (H := ExampleHost.exampleHost) "=1+" [] 0 ∅))
  = (CIRCULAR, ∅ ∪ {[formulaKey 0 "=1+"]}).
Proof.
  apply (proj1 (evaluateFormula_second_call (H := ExampleHost.exampleHost)
                  "=1+" [] 0 ∅ eq_refl (not_elem_of_empty _)) "SyntaxError").
  reflexivity.
Defined.

(** ** [_convertToNumber] *)

(** X12: [_convertToNumber] is idempotent, leaves every value that is not
    a text unchanged, and turns a text into a number only when the text
    reads as a number and is not blank. *)
Theorem convertToNumber_idempotent `{Host} (v : Value) :
  _convertToNumber (_convertToNumber v) = _convertToNumber v /\
  (typeofString v = false -> _convertToNumber v = v) /\
  (_convertToNumber v = v \/
   exists s : string,
     v = VStr s /\ trimNonEmpty s = true /\ is_nan (stringToNumber s) = false /\
     _convertToNumber v = VNum (stringToNumber s)).
Proof.
  unfold _convertToNumber, isNaN.
  destruct v as [| | b | n | s | elements]; simpl;
    try (split; [reflexivity | split; [reflexivity | left; reflexivity]]).
  destruct (is_nan (stringToNumber s)) eqn:Hnan; simpl;
    [rewrite Hnan; simpl; split; [reflexivity | split; [discriminate | left; reflexivity]] |].
  destruct (trimNonEmpty s) eqn:Htrim; simpl.
  - split; [reflexivity | split; [discriminate |]].
    right. exists s. repeat split; assumption.
  - rewrite Hnan, Htrim. simpl. split; [reflexivity | split; [discriminate | left; reflexivity]].
Qed.

(** ** The function tables *)

Lemma getFunctionArgValues_agree_without_tableId_witness :
  FormulaEngine.getFunctionArgValues (H := ExampleHost.exampleHost)
    [Range "A1:A2" None; Cell "A1" None; Literal (VNum 7)]
    [[ [rawCell (VNum 1)]; [rawCell (VNum 2)] ]] 0
  = ExcelFunctions.getFunctionArgValues (H := ExampleHost.exampleHost)
    [Range "A1:A2" None; Cell "A1" None; Literal (VNum 7)]
    [[ [rawCell (VNum 1)]; [rawCell (VNum 2)] ]] 0.
Proof.
  apply (getFunctionArgValues_agree_without_tableId (H := ExampleHost.exampleHost)).
  repeat constructor.
Defined.

(** X14: the library's [SUM], [COUNT], [MAX] and [MIN] are the static
    functions of the same names applied to the library's flattened argument
    values. *)
Theorem library_functions_compose `{Host} (args : list Ast) (allTables : Workbook)
    (currentTableIndex : Z) (values : list Value) :
  ExcelFunctions.getFunctionArgValues args allTables currentTableIndex = Normal values ->
  ExcelFunctions.SUM args allTables currentTableIndex
    = Normal (StaticExcelFunctions.SUM values) /\
  ExcelFunctions.COUNT args allTables currentTableIndex
    = Normal (StaticExcelFunctions.COUNT values) /\
  ExcelFunctions.MAX args allTables currentTableIndex
    = Normal (StaticExcelFunctions.MAX values) /\
  ExcelFunctions.MIN args allTables currentTableIndex
    = Normal (StaticExcelFunctions.MIN values).
Proof.
  intros Hflat.
  unfold ExcelFunctions.SUM, ExcelFunctions.COUNT, ExcelFunctions.MAX, ExcelFunctions.MIN.
  rewrite Hflat. simpl.
  assert (Hsum : forall acc,
             fold_left (fun sum val => (sum + val)%float)
                       (ExcelFunctions.numbersOf values) acc
             = fold_left (fun sum value =>
                            let num := toNumber value in
                            if is_nan num then sum else (sum + num)%float)
                         values acc).
  { clear Hflat. unfold ExcelFunctions.numbersOf.
    induction values as [| v values IH]; intros acc; simpl; [reflexivity |].
    destruct (is_nan (toNumber v)); simpl; apply IH. }
  split; [| split; [| split]].
  - unfold StaticExcelFunctions.SUM. rewrite Hsum. reflexivity.
  - reflexivity.
  - unfold StaticExcelFunctions.MAX, ExcelFunctions.numbersOf.
    destruct (List.length _ =? 0)%nat; reflexivity.
  - unfold StaticExcelFunctions.MIN, ExcelFunctions.numbersOf.
    destruct (List.length _ =? 0)%nat; reflexivity.
Qed.

Lemma library_functions_compose_witness :
  ExcelFunctions.SUM (H := ExampleHost.exampleHost)
    [Range "A1:A2" None; Literal (VStr "x")] [[ [rawCell (VNum 1)]; [rawCell (VNum 2)] ]] 0
    = Normal (StaticExcelFunctions.SUM (H := ExampleHost.exampleHost)
                [VNum 1; VNum 2; VStr "x"]) /\
  ExcelFunctions.COUNT (H := ExampleHost.exampleHost)
    [Range "A1:A2" None; Literal (VStr "x")] [[ [rawCell (VNum 1)]; [rawCell (VNum 2)] ]] 0
    = Normal (StaticExcelFunctions.COUNT (H := ExampleHost.exampleHost)
                [VNum 1; VNum 2; VStr "x"]) /\
  ExcelFunctions.MAX (H := ExampleHost.exampleHost)
    [Range "A1:A2" None; Literal (VStr "x")] [[ [rawCell (VNum 1)]; [rawCell (VNum 2)] ]] 0
    = Normal (StaticExcelFunctions.MAX (H := ExampleHost.exampleHost)
                [VNum 1; VNum 2; VStr "x"]) /\
  ExcelFunctions.MIN (H := ExampleHost.exampleHost)
    [Range "A1:A2" None; Literal (VStr "x")] [[ [rawCell (VNum 1)]; [rawCell (VNum 2)] ]] 0
    = Normal (StaticExcelFunctions.MIN (H := ExampleHost.exampleHost)
                [VNum 1; VNum 2; VStr "x"]).
Proof.
  apply (library_functions_compose (H := ExampleHost.exampleHost)). reflexivity.
Defined.

Lemma getCellValue_normal (ref : string) (data : Workbook) (tableIndex : Z) :
  exists v : Value, getCellValue ref data tableIndex = Normal v.
Proof.
  unfold getCellValue.
  destruct (Z.of_nat (List.length data) <=? tableIndex); [eexists; reflexivity |].
  destruct (parseCellReference ref) as [cellRef |]; [| eexists; reflexivity].
  destruct (index data tableIndex) as [table |]; simpl; [| eexists; reflexivity].
  destruct (index table (row cellRef)) as [cells |]; simpl; [| eexists; reflexivity].
  destruct (index cells (col cellRef)) as [cell |]; simpl; eexists; reflexivity.
Qed.





Lemma forOf_throws {St A : Type} (f : St -> A -> Completion St)
    (before after : list A) (a : A) (s : St) :
  (forall s x, In x before -> exists s', f s x = Normal s') ->
  (forall s, exists error, f s a = Throw error) ->
  exists error, forOf f (before ++ a :: after) s = Throw error.
Proof.
  intros Hbefore Ha. revert s.
  induction before as [| x before IH]; intros s; simpl.
  - destruct (Ha s) as [error ->]. exists error. reflexivity.
  - destruct (Hbefore s x (or_introl eq_refl)) as [s' ->]. simpl.
    apply IH. intros s0 y Hy. apply Hbefore. right. exact Hy.
Qed.

Lemma mapC_throws {A B : Type} (f : A -> Completion B)
    (before after : list A) (a : A) :
  (forall x, In x before -> exists b, f x = Normal b) ->
  (exists error, f a = Throw error) ->
  exists error, mapC f (before ++ a :: after) = Throw error.
Proof.
  intros Hbefore [error Ha].
  induction before as [| x before IH].
  - exists error.
    change ((b ← f a; bs ← mapC f after; Normal (b :: bs)) = Throw error).
    rewrite Ha. reflexivity.
  - destruct (Hbefore x (or_introl eq_refl)) as [b Hb].
    destruct IH as [error' IH].
    { intros y Hy. apply Hbefore. right. exact Hy. }
    exists error'.
    change ((b ← f x; bs ← mapC f (before ++ a :: after); Normal (b :: bs))
            = Throw error').
    rewrite Hb. simpl. rewrite IH. reflexivity.
Qed.

Lemma getFunctionArgValuesWith_null `{Host} (evaluate : Ast -> Workbook -> Z -> Value)
    (before after : list Ast) (allTables : Workbook) (currentTableIndex : Z) :
  Forall plainArgument before ->
  exists error,
    getFunctionArgValuesWith evaluate (before ++ Null :: after) allTables currentTableIndex
    = Throw error.
Proof.
  intros Hbefore. unfold getFunctionArgValuesWith.
  match goal with
  | |- context [mapC ?f _] =>
      destruct (mapC_throws f before after Null) as [error Herror]
  end.
  - intros arg Harg. rewrite List.Forall_forall in Hbefore.
    specialize (Hbefore arg Harg).
    destruct arg as [| | | reference tableId | reference tableId | |];
      try contradiction; try (eexists; reflexivity).
    destruct (getCellValue_normal reference allTables currentTableIndex) as [v Hv].
    rewrite Hv. eexists. reflexivity.
  - eexists. reflexivity.
  - rewrite Herror. eexists. reflexivity.
Qed.

(** X17: a [null] among the arguments of a registered function makes the
    call give '#ERROR!'.  When the arguments before it are literals, cell
    references or ranges with safe corners, the function reaches the [null]
    and reads its [type], which throws; [evaluateAst] (for AVERAGE, the
    function's own [catch]) turns the exception into '#ERROR!', whatever
    follows the [null]. *)
Theorem evaluateAst_null_argument `{Host} (name : string) (before after : list Ast)
    (allTables : Workbook) (currentTableIndex : Z) :
  inFunctions name = true ->
  Forall plainArgument before ->
  evaluateAst (Function name (before ++ Null :: after)) allTables currentTableIndex
  = ERROR.
Proof.
  intros Hname Hbefore.
  cbn [evaluateAst]. rewrite Hname. cbn [negb].
  unfold functions, inFunctions in *.
  destruct (String.eqb name "SUM").
  { unfold functionSUM.
    match goal with
    | |- context [forOf ?f _ ?s] =>
        destruct (forOf_throws f before after Null s) as [error Herror]
    end.
    - intros sum arg Harg. rewrite List.Forall_forall in Hbefore.
      specialize (Hbefore arg Harg).
      destruct arg as [| | | reference tableId | reference tableId | |];
        try contradiction.
      + destruct (getCellValue_normal reference allTables
                    (effectiveTable tableId currentTableIndex)) as [v Hv].
        rewrite Hv. simpl. destruct (is_nan (toNumber v)); eexists; reflexivity.
      + destruct (getRangeValues reference allTables
                    (effectiveTable tableId currentTableIndex)) as [| | | | | [| v vs]];
          eexists; reflexivity.
      + eexists. reflexivity.
    - intros sum. eexists. reflexivity.
    - rewrite Herror. reflexivity. }
  destruct (String.eqb name "AVERAGE").
  { unfold functionAVERAGE.
    match goal with
    | |- context [forOf ?f _ ?s] =>
        destruct (forOf_throws f before after Null s) as [error Herror]
    end.
    - intros values arg Harg. rewrite List.Forall_forall in Hbefore.
      specialize (Hbefore arg Harg).
      destruct arg as [| | | reference tableId | reference tableId | |];
        try contradiction.
      + destruct (getCellValue_normal reference allTables
                    (effectiveTable tableId currentTableIndex)) as [v Hv].
        rewrite Hv. simpl. destruct (is_nan (toNumber v)); eexists; reflexivity.
      + destruct (getRangeValues reference allTables
                    (effectiveTable tableId currentTableIndex));
          eexists; reflexivity.
      + eexists. reflexivity.
    - intros values. eexists. reflexivity.
    - rewrite Herror. reflexivity. }
  destruct (getFunctionArgValuesWith_null (fun a t i => evaluateAst a t i)
              before after allTables currentTableIndex Hbefore) as [error Herror].
  destruct (String.eqb name "COUNT").
  { unfold functionCOUNT. rewrite Herror. reflexivity. }
  destruct (String.eqb name "MAX").
  { unfold functionMAX. rewrite Herror. reflexivity. }
  destruct (String.eqb name "MIN"); [| discriminate].
  unfold functionMIN. rewrite Herror. reflexivity.
Qed.

Lemma evaluateAst_null_argument_witness :
  evaluateAst (H := ExampleHost.exampleHost)
    (Function "MAX" ([Literal (VNum 1); Cell "A1" None] ++ Null :: [Literal (VNum 2)]))
    [[ [rawCell (VNum 5)] ]] 0
  = ERROR.
Proof.
  apply (evaluateAst_null_argument (H := ExampleHost.exampleHost)).
  - reflexivity.
  - repeat constructor.
Defined.

(** ** Extrema *)

Lemma not_below_neg_infinity (b : float) : (b <? neg_infinity)%float = false.
Proof.
  rewrite FloatAxioms.ltb_spec.
  change (Prim2SF neg_infinity) with (S754_infinity true).
  destruct (Prim2SF b) as [sg | sg | | sg m e]; try destruct sg; reflexivity.
Qed.

Lemma not_above_infinity (b : float) : (infinity <? b)%float = false.
Proof.
  rewrite FloatAxioms.ltb_spec.
  change (Prim2SF infinity) with (S754_infinity false).
  destruct (Prim2SF b) as [sg | sg | | sg m e]; try destruct sg; reflexivity.
Qed.

Lemma max2_neg_infinity (b : float) : is_nan b = false -> max2 neg_infinity b = b.
Proof.
  intros Hb. unfold max2. rewrite Hb. simpl.
  rewrite not_below_neg_infinity.
  destruct (neg_infinity <? b)%float; reflexivity.
Qed.

Lemma min2_infinity (b : float) : is_nan b = false -> min2 infinity b = b.
Proof.
  intros Hb. unfold min2. rewrite Hb. simpl.
  rewrite not_above_infinity.
  destruct (b <? infinity)%float; reflexivity.
Qed.

Lemma max2_choice (a b : float) :
  is_nan a = false -> is_nan b = false -> max2 a b = a \/ max2 a b = b.
Proof.
  intros Ha Hb. unfold max2. rewrite Ha, Hb. simpl.
  destruct (a <? b)%float; [right; reflexivity |].
  destruct (b <? a)%float; [left; reflexivity |].
  destruct (get_sign a); [right | left]; reflexivity.
Qed.

Lemma min2_choice (a b : float) :
  is_nan a = false -> is_nan b = false -> min2 a b = a \/ min2 a b = b.
Proof.
  intros Ha Hb. unfold min2. rewrite Ha, Hb. simpl.
  destruct (a <? b)%float; [left; reflexivity |].
  destruct (b <? a)%float; [right; reflexivity |].
  destruct (get_sign a); [left | right]; reflexivity.
Qed.

Lemma fold_choice (pick : float -> float -> float) (numbers : list float) (a : float) :
  (forall x y, is_nan x = false -> is_nan y = false -> pick x y = x \/ pick x y = y) ->
  is_nan a = false ->
  Forall (fun n => is_nan n = false) numbers ->
  In (fold_left pick numbers a) (a :: numbers).
Proof.
  intros Hpick Ha Hnumbers. revert a Ha.
  induction Hnumbers as [| n numbers Hn _ IH]; intros a Ha; simpl; [left; reflexivity |].
  assert (Hnext : is_nan (pick a n) = false).
  { destruct (Hpick a n Ha Hn) as [-> | ->]; assumption. }
  destruct (IH (pick a n) Hnext) as [Heq | Hin].
  - rewrite <- Heq. destruct (Hpick a n Ha Hn) as [E | E]; rewrite E; auto.
  - right; right. exact Hin.
Qed.

Lemma numbersOf_not_nan `{Host} (values : list Value) :
  Forall (fun n => is_nan n = false) (ExcelFunctions.numbersOf values).
Proof.
  unfold ExcelFunctions.numbersOf. apply Forall_forall. intros n Hin.
  apply list_elem_of_In, filter_In in Hin as [_ Hn]. apply negb_true_iff in Hn. exact Hn.
Qed.

(** X18: the static [MAX] and [MIN] return [#ERROR!] exactly when no value
    coerces to a number, and otherwise return one of the coerced numbers of
    the list (never NaN, never the infinities they start from unless the
    list holds them). *)
Theorem MAX_MIN_pick_a_value `{Host} (values : list Value) :
  (ExcelFunctions.numbersOf values = [] /\
   StaticExcelFunctions.MAX values = ERROR /\ StaticExcelFunctions.MIN values = ERROR) \/
  (exists hi lo : float,
      StaticExcelFunctions.MAX values = VNum hi /\ In hi (ExcelFunctions.numbersOf values) /\
      StaticExcelFunctions.MIN values = VNum lo /\ In lo (ExcelFunctions.numbersOf values)).
Proof.
  pose proof (numbersOf_not_nan values) as Hnumbers.
  unfold StaticExcelFunctions.MAX, StaticExcelFunctions.MIN.
  unfold ExcelFunctions.numbersOf in *.
  destruct (List.filter (fun n => negb (is_nan n)) (List.map toNumber values))
    as [| n numbers]; [left; repeat split; reflexivity |].
  right. inversion Hnumbers as [| ? ? Hn Hrest]; subst.
  exists (mathMax (n :: numbers)), (mathMin (n :: numbers)).
  unfold mathMax, mathMin. simpl.
  rewrite (max2_neg_infinity n Hn), (min2_infinity n Hn).
  split; [reflexivity | split; [| split; [reflexivity |]]].
  - apply (fold_choice max2 numbers n max2_choice Hn Hrest).
  - apply (fold_choice min2 numbers n min2_choice Hn Hrest).
Qed.

(** X19: the static [AVERAGE] counts only values that are numbers already:
    on a list without any (texts that read as numbers included) it returns
    0, and on a list of numbers none of which is NaN it is their
    left-to-right sum divided by their count. *)
Theorem AVERAGE_numbers_only `{Host} (values : list Value) :
  (Forall (fun v => typeofNumber v = false) values ->
   StaticExcelFunctions.AVERAGE values = VNum 0) /\
  (values <> [] ->
   Forall (fun v => typeofNumber v = true /\ isNaN v = false) values ->
   StaticExcelFunctions.AVERAGE values
   = VNum (fold_left (fun acc val => (acc + toNumber val)%float) values 0%float
           / lengthNumber values)).
Proof.
  split.
  - intros Hnone. unfold StaticExcelFunctions.AVERAGE.
    destruct (List.length values =? 0)%nat; [reflexivity |].
    assert (Hfilter : List.filter (fun value => typeofNumber value && negb (isNaN value))
                                  values = []).
    { induction Hnone as [| v values Hv _ IH]; simpl; [reflexivity |].
      rewrite Hv. simpl. exact IH. }
    rewrite Hfilter. reflexivity.
  - intros Hne Hall. unfold StaticExcelFunctions.AVERAGE.
    assert (Hfilter : List.filter (fun value => typeofNumber value && negb (isNaN value))
                                  values = values).
    { clear Hne. induction Hall as [| v values [Hv Hn] _ IH]; simpl; [reflexivity |].
      rewrite Hv, Hn. simpl. rewrite IH. reflexivity. }
    rewrite Hfilter.
    destruct values as [| v values]; [contradiction |]. reflexivity.
Qed.

(** ** The orchestrator as one pass over the places *)

Lemma forEachFrom_flat_map {St A P : Type} (f : A -> nat -> St -> St)
    (step : St -> P -> St) (g : nat -> A -> list P) (l : list A) (i : nat) (s : St) :
  (forall a j s, f a j s = fold_left step (g j a) s) ->
  forEachFrom f l i s
  = fold_left step (flat_map (fun ja => g (fst ja) (snd ja)) (indexed l i)) s.
Proof.
  intros Hf. revert i s.
  induction l as [| a l IH]; intros i s; simpl; [reflexivity |].
  rewrite fold_left_app, <- Hf. apply IH.
Qed.

Lemma indexed_In {A : Type} (l : list A) (i j : nat) (a : A) :
  In (j, a) (indexed l i) <-> (i <= j)%nat /\ l !! (j - i)%nat = Some a.
Proof.
  revert i. induction l as [| b l IH]; intros i; simpl.
  - split; [contradiction | intros [_ Hl]; discriminate].
  - rewrite IH. split.
    + intros [Heq | [Hle Hl]].
      * injection Heq as <- <-. split; [lia |]. rewrite Nat.sub_diag. reflexivity.
      * split; [lia |]. replace (j - i)%nat with (S (j - S i)) by lia. exact Hl.
    + intros [Hle Hl]. destruct (decide (i = j)) as [<- | Hne].
      * left. rewrite Nat.sub_diag in Hl. simpl in Hl. injection Hl as <-. reflexivity.
      * right. split; [lia |].
        replace (j - i)%nat with (S (j - S i)) in Hl by lia. exact Hl.
Qed.

Lemma flat_map_indexed_In {A P : Type} (g : nat -> A -> list P) (l : list A) (x : P) :
  In x (flat_map (fun ja => g (fst ja) (snd ja)) (indexed l 0))
  <-> exists j a, l !! j = Some a /\ In x (g j a).
Proof.
  rewrite in_flat_map. split.
  - intros ([j a] & Hin & Hx). apply indexed_In in Hin as [_ Hl].
    rewrite Nat.sub_0_r in Hl. exists j, a. auto.
  - intros (j & a & Hl & Hx). exists (j, a). split; [| exact Hx].
    apply indexed_In. split; [lia |]. rewrite Nat.sub_0_r. exact Hl.
Qed.

Lemma StronglySorted_append {P : Type} (R : P -> P -> Prop) (l1 l2 : list P) :
  StronglySorted R l1 -> StronglySorted R l2 ->
  (forall x y, In x l1 -> In y l2 -> R x y) ->
  StronglySorted R (l1 ++ l2).
Proof.
  intros H1 H2 Hcross. induction H1 as [| x l1 Hl1 IH Hx]; simpl; [exact H2 |].
  constructor.
  - apply IH. intros a b Ha Hb. apply Hcross; [right; exact Ha | exact Hb].
  - apply List.Forall_forall. intros y Hy. apply in_app_or in Hy as [Hy | Hy].
    + rewrite List.Forall_forall in Hx. apply Hx. exact Hy.
    + apply Hcross; [left; reflexivity | exact Hy].
Qed.

Lemma StronglySorted_flat_map_indexed {A P : Type} (R : P -> P -> Prop)
    (g : nat -> A -> list P) (l : list A) (i : nat) :
  (forall j a, StronglySorted R (g j a)) ->
  (forall j1 a1 j2 a2 x y,
      (j1 < j2)%nat -> In x (g j1 a1) -> In y (g j2 a2) -> R x y) ->
  StronglySorted R (flat_map (fun ja => g (fst ja) (snd ja)) (indexed l i)).
Proof.
  intros Hsorted Hcross. revert i.
  induction l as [| a l IH]; intros i; simpl; [constructor |].
  apply StronglySorted_append; [apply Hsorted | apply IH |].
  intros x y Hx Hy. apply in_flat_map in Hy as ([j b] & Hin & Hy).
  apply indexed_In in Hin as [Hle _]. simpl in Hy.
  apply (Hcross i a j b); [lia | exact Hx | exact Hy].
Qed.

Lemma StronglySorted_split {P : Type} (R : P -> P -> Prop) (pre post : list P) (p : P) :
  StronglySorted R (pre ++ p :: post) ->
  List.Forall (fun q => R q p) pre /\ List.Forall (R p) post.
Proof.
  induction pre as [| x pre IH]; simpl; intros Hsorted.
  - apply StronglySorted_inv in Hsorted as [_ Hp]. split; [constructor | exact Hp].
  - apply StronglySorted_inv in Hsorted as [Hrest Hx].
    destruct (IH Hrest) as [Hpre Hpost]. split; [| exact Hpost].
    constructor; [| exact Hpre].
    rewrite List.Forall_forall in Hx. apply Hx. apply in_or_app. right. left. reflexivity.
Qed.

Lemma rowPlaces_In (t r : nat) (cells : Row) (p : nat * nat * nat) :
  In p (rowPlaces t r cells) <-> exists c cell, cells !! c = Some cell /\ p = (t, r, c).
Proof.
  unfold rowPlaces. rewrite (flat_map_indexed_In (fun c _ => [(t, r, c)])).
  split; intros (c & cell & Hc & Hp); exists c, cell; (split; [exact Hc |]).
  - destruct Hp as [<- | []]. reflexivity.
  - left. symmetry. exact Hp.
Qed.

Lemma tablePlaces_In (t : nat) (table : Table) (p : nat * nat * nat) :
  In p (tablePlaces t table)
  <-> exists r cells c cell, table !! r = Some cells /\ cells !! c = Some cell /\ p = (t, r, c).
Proof.
  unfold tablePlaces. rewrite (flat_map_indexed_In (fun r cells => rowPlaces t r cells)).
  split.
  - intros (r & cells & Hr & Hp). apply rowPlaces_In in Hp as (c & cell & Hc & ->).
    exists r, cells, c, cell. auto.
  - intros (r & cells & c & cell & Hr & Hc & ->). exists r, cells. split; [exact Hr |].
    apply rowPlaces_In. exists c, cell. auto.
Qed.

Lemma places_In (tables : Workbook) (p : nat * nat * nat) :
  In p (places tables) <-> exists cell, cellAt tables p = Some cell.
Proof.
  unfold places. rewrite (flat_map_indexed_In (fun t table => tablePlaces t table)).
  destruct p as [[t r] c]. unfold cellAt, getCell. split.
  - intros (t' & table & Ht & Hp).
    apply tablePlaces_In in Hp as (r' & cells & c' & cell & Hr & Hc & Heq).
    injection Heq as -> -> ->. exists cell.
    unfold Workbook, Table, Row in *. rewrite Ht. simpl. rewrite Hr. simpl. exact Hc.
  - intros (cell & Hcell). unfold Workbook, Table, Row in *.
    destruct (tables !! t) as [table |] eqn:Ht; [| discriminate]. simpl in Hcell.
    destruct (table !! r) as [cells |] eqn:Hr; [| discriminate]. simpl in Hcell.
    exists t, table. split; [exact Ht |].
    apply tablePlaces_In. exists r, cells, c, cell. auto.
Qed.

Lemma places_sorted (tables : Workbook) : StronglySorted placeBefore (places tables).
Proof.
  unfold places.
  apply (StronglySorted_flat_map_indexed placeBefore (fun t table => tablePlaces t table)).
  - intros t table. unfold tablePlaces.
    apply (StronglySorted_flat_map_indexed placeBefore (fun r cells => rowPlaces t r cells)).
    + intros r cells. unfold rowPlaces.
      apply (StronglySorted_flat_map_indexed placeBefore
               (fun c (_ : CellData) => [(t, r, c)])).
      * intros c cell. repeat constructor.
      * intros c1 _ c2 _ x y Hlt [<- | []] [<- | []]. simpl. lia.
    + intros r1 cells1 r2 cells2 x y Hlt Hx Hy.
      apply rowPlaces_In in Hx as (c1 & _ & _ & ->).
      apply rowPlaces_In in Hy as (c2 & _ & _ & ->). simpl. lia.
  - intros t1 table1 t2 table2 x y Hlt Hx Hy.
    apply tablePlaces_In in Hx as (r1 & _ & c1 & _ & _ & _ & ->).
    apply tablePlaces_In in Hy as (r2 & _ & c2 & _ & _ & _ & ->). simpl. lia.
Qed.

Lemma processData_fold `{Host} (data : Data) :
  processData data
  = fold_left visitCell (places (inputTables data)) (mkResult (inputTables data) []).
Proof.
  unfold processData, forEach, places. simpl.
  change (match data with
          | DataArray tables => tables
          | DataObject tables => [tables]
          end) with (inputTables data).
  apply (forEachFrom_flat_map _ visitCell (fun t table => tablePlaces t table)).
  intros table t s. unfold tablePlaces.
  apply (forEachFrom_flat_map _ visitCell (fun r cells => rowPlaces t r cells)).
  intros cells r s'. unfold rowPlaces.
  apply (forEachFrom_flat_map _ visitCell (fun c (_ : CellData) => [(t, r, c)])).
  intros cell c s''. reflexivity.
Qed.

Lemma getCell_setCell_other (tables : Workbook) (t r c t' r' c' : nat) (new : CellData) :
  (t, r, c) <> (t', r', c') ->
  getCell (setCell tables t r c new) t' r' c' = getCell tables t' r' c'.
Proof.
  unfold getCell, setCell, Workbook, Table, Row in *. intros Hne.
  destruct (decide (t = t')) as [<- | Ht]; [| rewrite list_lookup_alter_ne by exact Ht; reflexivity].
  rewrite list_lookup_alter_eq.
  destruct (tables !! t) as [rows |]; [| reflexivity]. simpl.
  destruct (decide (r = r')) as [<- | Hr]; [| rewrite list_lookup_alter_ne by exact Hr; reflexivity].
  rewrite list_lookup_alter_eq.
  destruct (rows !! r) as [cells |]; [| reflexivity]. simpl.
  apply list_lookup_insert_ne. congruence.
Qed.

Lemma processCell_tables `{Host} (result : Result) (t r c : nat) (cell : CellData) :
  tables (processCell result t r c cell)
  = setCell (tables result) t r c (storedCell result t cell).
Proof.
  unfold processCell, storedCell. destruct (isFormula (value cell)); reflexivity.
Qed.

Lemma applyFormat_keeps `{Host} (cell : CellData) (formatValue : Value) :
  value (applyFormat cell formatValue) = value cell /\
  resolved (applyFormat cell formatValue) = resolved cell /\
  resolvedValue (applyFormat cell formatValue) = resolvedValue cell /\
  excelFormat (applyFormat cell formatValue) = excelFormat cell.
Proof.
  unfold applyFormat. destruct (excelFormat cell) as [[| ch rest] |] eqn:E;
    simpl; rewrite ?E; repeat split; reflexivity.
Qed.

Lemma storedCell_keeps `{Host} (result : Result) (t : nat) (cell : CellData) :
  value (storedCell result t cell) = value cell /\
  excelFormat (storedCell result t cell) = excelFormat cell /\
  resolved (storedCell result t cell) = true.
Proof.
  unfold storedCell, plainCell.
  destruct (isFormula (value cell));
    match goal with
    | |- context [applyFormat ?c ?v] =>
        destruct (applyFormat_keeps c v) as (Hv & Hr & _ & Hf);
        rewrite Hv, Hr, Hf
    end; repeat split; reflexivity.
Qed.

Lemma visitCell_other `{Host} (result : Result) (p q : nat * nat * nat) :
  p <> q -> cellAt (tables (visitCell result p)) q = cellAt (tables result) q.
Proof.
  destruct p as [[t r] c], q as [[t' r'] c']. intros Hne. unfold visitCell, cellAt.
  destruct (getCell (tables result) t r c) as [cell |]; [| reflexivity].
  rewrite processCell_tables. apply getCell_setCell_other. exact Hne.
Qed.

Lemma visitCell_same `{Host} (result : Result) (t r c : nat) (cell : CellData) :
  getCell (tables result) t r c = Some cell ->
  cellAt (tables (visitCell result (t, r, c))) (t, r, c)
  = Some (storedCell result t cell).
Proof.
  intros Hcell. unfold visitCell, cellAt. rewrite Hcell, processCell_tables.
  apply (getCell_setCell _ _ _ _ cell). exact Hcell.
Qed.

Lemma visitCell_absent `{Host} (result : Result) (t r c : nat) :
  getCell (tables result) t r c = None -> visitCell result (t, r, c) = result.
Proof. intros Hcell. unfold visitCell. rewrite Hcell. reflexivity. Qed.

Lemma fold_visitCell_other `{Host} (ps : list (nat * nat * nat)) (result : Result)
    (q : nat * nat * nat) :
  ~ In q ps ->
  cellAt (tables (fold_left visitCell ps result)) q = cellAt (tables result) q.
Proof.
  revert result. induction ps as [| p ps IH]; intros result Hq; simpl; [reflexivity |].
  rewrite IH by (intros Hin; apply Hq; right; exact Hin).
  apply visitCell_other. intros ->. apply Hq. left. reflexivity.
Qed.

Lemma placeBefore_irreflexive (p : nat * nat * nat) : ~ placeBefore p p.
Proof. destruct p as [[t r] c]. simpl. lia. Qed.

Lemma placeBefore_asymmetric (p q : nat * nat * nat) :
  placeBefore p q -> ~ placeBefore q p.
Proof. destruct p as [[t r] c], q as [[t' r'] c']. simpl. lia. Qed.

(** The state in which a place is visited: the places before it hold what
    the output holds, the others what the input holds, and the output
    holds at the place what that visit stored. *)
Lemma processData_cell `{Host} (data : Data) (t r c : nat) (cell : CellData) :
  getCell (inputTables data) t r c = Some cell ->
  exists seen : Result,
    (forall q, placeBefore q (t, r, c) ->
               cellAt (tables seen) q = cellAt (tables (processData data)) q) /\
    (forall q, ~ placeBefore q (t, r, c) ->
               cellAt (tables seen) q = cellAt (inputTables data) q) /\
    getCell (tables (processData data)) t r c = Some (storedCell seen t cell).
Proof.
  intros Hcell.
  assert (Hin : In (t, r, c) (places (inputTables data))).
  { apply places_In. exists cell. exact Hcell. }
  apply in_split in Hin as (pre & post & Hplaces).
  pose proof (places_sorted (inputTables data)) as Hsorted.
  rewrite Hplaces in Hsorted.
  apply StronglySorted_split in Hsorted as [Hpre Hpost].
  rewrite List.Forall_forall in Hpre, Hpost.
  rewrite processData_fold, Hplaces, fold_left_app. cbn [fold_left].
  set (init := mkResult (inputTables data) []).
  set (seen := fold_left visitCell pre init).
  assert (Hlater : forall q, ~ placeBefore q (t, r, c) ->
                     cellAt (tables seen) q = cellAt (inputTables data) q).
  { intros q Hq. unfold seen. rewrite fold_visitCell_other; [reflexivity |].
    intros Hin. apply Hq, Hpre, Hin. }
  exists seen. split; [| split].
  - intros q Hq.
    rewrite fold_visitCell_other.
    + rewrite visitCell_other; [reflexivity |]. intros <-.
      apply (placeBefore_irreflexive _ Hq).
    + intros Hin. apply (placeBefore_asymmetric _ _ Hq), Hpost, Hin.
  - exact Hlater.
  - change (cellAt (tables (fold_left visitCell post (visitCell seen (t, r, c)))) (t, r, c)
            = Some (storedCell seen t cell)).
    rewrite fold_visitCell_other
      by (intros Hin; apply (placeBefore_irreflexive (t, r, c)), Hpost, Hin).
    apply visitCell_same.
    change (cellAt (tables seen) (t, r, c) = Some cell).
    rewrite Hlater by apply placeBefore_irreflexive. exact Hcell.
Qed.

Lemma visitCell_keeps `{Host} (result : Result) (p q : nat * nat * nat) :
  (value <$> cellAt (tables (visitCell result p)) q) = (value <$> cellAt (tables result) q) /\
  (excelFormat <$> cellAt (tables (visitCell result p)) q)
    = (excelFormat <$> cellAt (tables result) q).
Proof.
  destruct (decide (p = q)) as [<- | Hne]; [| rewrite visitCell_other by exact Hne; auto].
  destruct p as [[t r] c].
  destruct (getCell (tables result) t r c) as [cell |] eqn:Hcell.
  - rewrite (visitCell_same _ _ _ _ _ Hcell). unfold cellAt. rewrite Hcell. simpl.
    destruct (storedCell_keeps result t cell) as (-> & -> & _). auto.
  - rewrite (visitCell_absent _ _ _ _ Hcell). auto.
Qed.

Lemma fold_visitCell_keeps `{Host} (ps : list (nat * nat * nat)) (result : Result)
    (q : nat * nat * nat) :
  (value <$> cellAt (tables (fold_left visitCell ps result)) q)
    = (value <$> cellAt (tables result) q) /\
  (excelFormat <$> cellAt (tables (fold_left visitCell ps result)) q)
    = (excelFormat <$> cellAt (tables result) q).
Proof.
  revert result. induction ps as [| p ps IH]; intros result; simpl; [auto |].
  destruct (IH (visitCell result p)) as [-> ->]. apply visitCell_keeps.
Qed.

(** X20: [processData] never overwrites a raw value or a format string and
    neither adds nor removes a cell: at every place, the output has a cell
    exactly when the input has one, with the same [value] and the same
    [excelFormat]. *)
Theorem processData_keeps_raw_values `{Host} (data : Data) (t r c : nat) :
  (value <$> getCell (tables (processData data)) t r c)
    = (value <$> getCell (inputTables data) t r c) /\
  (excelFormat <$> getCell (tables (processData data)) t r c)
    = (excelFormat <$> getCell (inputTables data) t r c).
Proof.
  rewrite processData_fold.
  apply (fold_visitCell_keeps (places (inputTables data))
           (mkResult (inputTables data) []) (t, r, c)).
Qed.

Lemma processData_plain `{Host} (data : Data) (t r c : nat) (cell : CellData) :
  getCell (inputTables data) t r c = Some cell ->
  isFormula (value cell) = None ->
  getCell (tables (processData data)) t r c = Some (plainCell cell).
Proof.
  intros Hcell Hplain.
  destruct (processData_cell data t r c cell Hcell) as (seen & _ & _ & Hout).
  rewrite Hout. unfold storedCell. rewrite Hplain. reflexivity.
Qed.



(** On a workbook of distinct cells, the workbook a formula cell is
    evaluated against agrees with the output at the earlier places and with
    the input at the others. *)
Lemma processData_formula_cell_distinct `{Host} (data : Data) (t r c : nat) (cell : CellData)
    (formula : string) :
  getCell (inputTables data) t r c = Some cell ->
  isFormula (value cell) = Some formula ->
  exists seen : Workbook,
    (forall q, placeBefore q (t, r, c) ->
               cellAt seen q = cellAt (tables (processData data)) q) /\
    (forall q, ~ placeBefore q (t, r, c) ->
               cellAt seen q = cellAt (inputTables data) q) /\
    resolvedAt (processData data) t r c
    = Some (_convertToNumber (fst (evaluateFormula formula seen (Z.of_nat t) ∅))).
Proof.
  intros Hcell Hformula.
  destruct (processData_cell data t r c cell Hcell) as (seen & Hbefore & Hlater & Hout).
  exists (tables seen). split; [exact Hbefore | split; [exact Hlater |]].
  unfold resolvedAt. rewrite Hout. simpl. f_equal.
  unfold storedCell. rewrite Hformula.
  match goal with
  | |- context [applyFormat ?c ?v] =>
      destruct (applyFormat_keeps c v) as (_ & _ & -> & _)
  end.
  reflexivity.
Qed.

Lemma nth_error_lookup_list {A : Type} (l : list A) (i : nat) : nth_error l i = l !! i.
Proof.
  revert i. induction l as [| a l IH]; intros [| i]; simpl; try reflexivity. apply IH.
Qed.

Lemma index_to_nat {A : Type} (l : list A) (z : Z) :
  0 <= z -> index l z = l !! Z.to_nat z.
Proof.
  intros Hz. unfold index.
  destruct (z <? 0) eqn:E; [apply Z.ltb_lt in E; lia |]. apply nth_error_lookup_list.
Qed.

Lemma getCellValue_at (reference : string) (cellRef : CellRef) (data : Workbook) (t : nat) :
  parseCellReference reference = Some cellRef ->
  0 <= row cellRef -> 0 <= col cellRef ->
  getCellValue reference data (Z.of_nat t)
  = Normal match getCell data t (Z.to_nat (row cellRef)) (Z.to_nat (col cellRef)) with
           | Some cell => currentValue cell
           | None => REF
           end.
Proof.
  intros Hparse Hrow Hcol. unfold getCellValue, getCell. rewrite Hparse.
  unfold Workbook, Table, Row in *.
  destruct (Z.of_nat (List.length data) <=? Z.of_nat t) eqn:Hlen.
  { apply Z.leb_le in Hlen.
    rewrite (lookup_ge_None_2 data t) by lia. reflexivity. }
  rewrite (index_to_nat data) by lia. rewrite Nat2Z.id.
  destruct (data !! t) as [table |]; [| reflexivity]. simpl.
  rewrite (index_to_nat table) by exact Hrow.
  destruct (table !! Z.to_nat (row cellRef)) as [cells |]; [| reflexivity]. simpl.
  rewrite (index_to_nat cells) by exact Hcol.
  destruct (cells !! Z.to_nat (col cellRef)); reflexivity.
Qed.

Lemma isFormula_starts (v : Value) (formula : string) :
  isFormula v = Some formula -> v = VStr formula /\ startsWithEq formula = true.
Proof.
  unfold isFormula. destruct v; try discriminate.
  destruct (startsWithEq s) eqn:E; [| discriminate].
  intros Heq. injection Heq as <-. auto.
Qed.

Lemma storedCell_resolvedValue `{Host} (result : Result) (t : nat) (cell : CellData)
    (formula : string) :
  isFormula (value cell) = Some formula ->
  resolvedValue (storedCell result t cell)
  = _convertToNumber (fst (evaluateFormula formula (tables result) (Z.of_nat t) ∅)).
Proof.
  intros Hformula. unfold storedCell. rewrite Hformula.
  match goal with
  | |- context [applyFormat ?c ?v] =>
      destruct (applyFormat_keeps c v) as (_ & _ & -> & _)
  end.
  reflexivity.
Qed.

(** On a workbook of distinct cells, a plain reference stores the output's
    cell when the referenced place comes earlier and the input's cell
    otherwise. *)
Lemma processData_reference_distinct `{Host} (data : Data) (t r c t' : nat) (cell : CellData)
    (formula reference : string) (tableId : option Z) (cellRef : CellRef) :
  getCell (inputTables data) t r c = Some cell ->
  isFormula (value cell) = Some formula ->
  parse formula = Normal (Cell reference tableId) ->
  effectiveTable tableId (Z.of_nat t) = Z.of_nat t' ->
  parseCellReference reference = Some cellRef ->
  0 <= row cellRef ->
  (placeBefore (t', Z.to_nat (row cellRef), Z.to_nat (col cellRef)) (t, r, c) ->
   resolvedAt (processData data) t r c
   = Some (_convertToNumber
             match getCell (tables (processData data))
                           t' (Z.to_nat (row cellRef)) (Z.to_nat (col cellRef)) with
             | Some referenced => currentValue referenced
             | None => REF
             end)) /\
  (~ placeBefore (t', Z.to_nat (row cellRef), Z.to_nat (col cellRef)) (t, r, c) ->
   resolvedAt (processData data) t r c
   = Some (_convertToNumber
             match getCell (inputTables data)
                           t' (Z.to_nat (row cellRef)) (Z.to_nat (col cellRef)) with
             | Some referenced => currentValue referenced
             | None => REF
             end)).
Proof.
  intros Hcell Hformula Hparse Htable Href Hrow.
  assert (Hcol : 0 <= col cellRef).
  { apply parseCellReference_shape in Href
      as (colStr & rowStr & _ & Hletters & _ & _ & _ & -> & _).
    apply columnLoop_nonneg; [exact Hletters | lia]. }
  destruct (processData_cell data t r c cell Hcell) as (seen & Hbefore & Hlater & Hout).
  assert (Hstored : resolvedAt (processData data) t r c
                    = Some (_convertToNumber
                              match getCell (tables seen) t' (Z.to_nat (row cellRef))
                                            (Z.to_nat (col cellRef)) with
                              | Some referenced => currentValue referenced
                              | None => REF
                              end)).
  { unfold resolvedAt. rewrite Hout. simpl. f_equal.
    rewrite (storedCell_resolvedValue _ _ _ _ Hformula).
    destruct (isFormula_starts _ _ Hformula) as [_ Hstart].
    rewrite evaluateFormula_not_visited by (exact Hstart || apply not_elem_of_empty).
    rewrite Hparse. cbn [fst evaluateAst]. rewrite Htable.
    rewrite (getCellValue_at reference cellRef (tables seen) t' Href Hrow Hcol).
    reflexivity. }
  split; intros Hplace; rewrite Hstored.
  - pose proof (Hbefore _ Hplace) as Hsame. unfold cellAt in Hsame.
    rewrite Hsame. reflexivity.
  - pose proof (Hlater _ Hplace) as Hsame. unfold cellAt in Hsame.
    rewrite Hsame. reflexivity.
Qed.

Lemma processCell_formulas `{Host} (result : Result) (t r c : nat) (cell : CellData) :
  formulas (processCell result t r c cell)
  = (formulas result
     ++ match isFormula (value cell) with
        | Some _ => [mkEntry t r c (storedCell result t cell)]
        | None => []
        end)%list.
Proof.
  unfold processCell, storedCell.
  destruct (isFormula (value cell)); simpl; [reflexivity | rewrite app_nil_r; reflexivity].
Qed.

Lemma fold_visitCell_formulas `{Host} (ps : list (nat * nat * nat)) (result : Result) :
  NoDup ps ->
  formulas (fold_left visitCell ps result)
  = (formulas result
     ++ omap (entryAt (tables (fold_left visitCell ps result))) ps)%list.
Proof.
  revert result. induction ps as [| p ps IH]; intros result Hnodup; simpl.
  { rewrite app_nil_r. reflexivity. }
  apply NoDup_cons in Hnodup as [Hp Hnodup].
  rewrite (IH (visitCell result p) Hnodup).
  assert (Hentry : entryAt (tables (fold_left visitCell ps (visitCell result p))) p
                   = entryAt (tables (visitCell result p)) p).
  { pose proof (fold_visitCell_other ps (visitCell result p) p) as Hsame.
    destruct p as [[t r] c]. unfold cellAt in Hsame. unfold entryAt.
    rewrite Hsame; [reflexivity |]. intros Hin. apply Hp, list_elem_of_In, Hin. }
  rewrite Hentry. clear Hentry IH.
  destruct p as [[t r] c].
  destruct (getCell (tables result) t r c) as [cell |] eqn:Hcell.
  - pose proof (visitCell_same result t r c cell Hcell) as Hsame.
    unfold cellAt in Hsame. unfold entryAt. rewrite Hsame.
    destruct (storedCell_keeps result t cell) as (-> & _ & _).
    unfold visitCell at 1. rewrite Hcell, processCell_formulas.
    destruct (isFormula (value cell)); simpl.
    + rewrite <- app_assoc. reflexivity.
    + rewrite app_nil_r. reflexivity.
  - rewrite (visitCell_absent _ _ _ _ Hcell). unfold entryAt. rewrite Hcell. reflexivity.
Qed.

Lemma places_NoDup (tables : Workbook) : NoDup (places tables).
Proof.
  pose proof (places_sorted tables) as Hsorted.
  induction Hsorted as [| p ps _ IH Hp]; constructor; [| exact IH].
  intros Hin. apply list_elem_of_In in Hin.
  rewrite List.Forall_forall in Hp.
  apply (placeBefore_irreflexive p), Hp, Hin.
Qed.

(** On a workbook of distinct cells, [formulas] lists the formula cells in
    the order of the visit, each as it stands in the output. *)
Lemma processData_formulas_distinct `{Host} (data : Data) :
  formulas (processData data)
  = omap (entryAt (tables (processData data))) (places (inputTables data)) /\
  (forall t r c cell,
      getCell (inputTables data) t r c = Some cell ->
      (is_Some (isFormula (value cell))
       <-> exists cell', In (mkEntry t r c cell') (formulas (processData data)))).
Proof.
  assert (Hlist : formulas (processData data)
                  = omap (entryAt (tables (processData data))) (places (inputTables data))).
  { rewrite processData_fold at 1.
    rewrite (fold_visitCell_formulas _ _ (places_NoDup _)). simpl.
    rewrite <- processData_fold. reflexivity. }
  split; [exact Hlist |].
  intros t r c cell Hcell.
  assert (Hvalue : (value <$> getCell (tables (processData data)) t r c)
                   = (value <$> getCell (inputTables data) t r c)).
  { rewrite processData_fold.
    apply (fold_visitCell_keeps (places (inputTables data))
             (mkResult (inputTables data) []) (t, r, c)). }
  rewrite Hcell in Hvalue. simpl in Hvalue.
  destruct (getCell (tables (processData data)) t r c) as [out |] eqn:Hout;
    [| discriminate].
  simpl in Hvalue. injection Hvalue as Hvalue.
  rewrite Hlist. split.
  - intros [formula Hformula]. exists out.
    apply list_elem_of_In, list_elem_of_omap. exists (t, r, c). split.
    + apply list_elem_of_In, places_In. exists cell. exact Hcell.
    + unfold entryAt. rewrite Hout, Hvalue, Hformula. reflexivity.
  - intros (cell' & Hin).
    apply list_elem_of_In, list_elem_of_omap in Hin as ([[t0 r0] c0] & _ & Hentry).
    unfold entryAt in Hentry.
    destruct (getCell (tables (processData data)) t0 r0 c0) as [out0 |] eqn:Hout0;
      [| discriminate].
    destruct (isFormula (value out0)) as [formula |] eqn:Hformula; [| discriminate].
    injection Hentry as -> -> -> ->.
    rewrite Hout in Hout0. injection Hout0 as <-.
    rewrite Hvalue in Hformula. rewrite Hformula. eexists. reflexivity.
Qed.

Lemma plainCell_idempotent `{Host} (cell : CellData) :
  plainCell (plainCell cell) = plainCell cell.
Proof.
  unfold plainCell, applyFormat. simpl.
  destruct (excelFormat cell) as [[| ch rest] |] eqn:Hformat; simpl;
    rewrite ?Hformat; try reflexivity.
  destruct (truthy (snd (formatterFormat (value cell) (String ch rest)))) eqn:Hcolor;
    simpl; rewrite ?Hcolor; reflexivity.
Qed.

(** X25: running [processData] again on its own output leaves every cell
    that is not a formula exactly as the first run left it (same resolved
    value, display value and text colour). *)
Theorem processData_twice_plain_cell `{Host} (data : Data) (t r c : nat) (cell : CellData) :
  getCell (inputTables data) t r c = Some cell ->
  isFormula (value cell) = None ->
  getCell (tables (processData (DataArray (tables (processData data))))) t r c
  = getCell (tables (processData data)) t r c.
Proof.
  intros Hcell Hplain.
  pose proof (processData_plain data t r c cell Hcell Hplain) as Hfirst.
  rewrite Hfirst.
  rewrite (processData_plain (DataArray (tables (processData data))) t r c (plainCell cell)).
  - rewrite plainCell_idempotent. reflexivity.
  - exact Hfirst.
  - unfold plainCell.
    match goal with
    | |- context [applyFormat ?c ?v] =>
        destruct (applyFormat_keeps c v) as (-> & _)
    end.
    exact Hplain.
Qed.

Lemma processData_twice_plain_cell_witness :
  getCell (tables (processData (H := ExampleHost.exampleHost)
                     (DataArray
                        (tables (processData (H := ExampleHost.exampleHost)
                                   (DataArray [[ [rawCell (VStr "=B1");
                                                  rawCell (VNum 5)] ]])))))) 0 0 1
  = getCell (tables (processData (H := ExampleHost.exampleHost)
                       (DataArray [[ [rawCell (VStr "=B1"); rawCell (VNum 5)] ]]))) 0 0 1.
Proof.
  apply (processData_twice_plain_cell (H := ExampleHost.exampleHost)
           (DataArray [[ [rawCell (VStr "=B1"); rawCell (VNum 5)] ]]) 0 0 1
           (rawCell (VNum 5)));
    reflexivity.
Defined.

(** ** The orchestrator on cell objects *)

Lemma processObject_stored `{Host} (layout : Layout) (t r c object : nat)
    (state : ObjectResult) :
  let result := mkResult (view (objectHeap state) layout) (objectFormulas state) in
  let cell := objectHeap state object in
  processObject layout t r c object state
  = mkObjectResult (assign (objectHeap state) object (storedCell result t cell))
                   (formulas (processCell result t r c cell)).
Proof.
  unfold processObject, processCell, storedCell, plainCell. simpl.
  destruct (isFormula (value (objectHeap state object))); reflexivity.
Qed.

Lemma forEachFrom_related {St1 St2 A B : Type} (R : St1 -> St2 -> Prop) (h : A -> B)
    (f1 : A -> nat -> St1 -> St1) (f2 : B -> nat -> St2 -> St2)
    (l : list A) (i : nat) (s1 : St1) (s2 : St2) :
  (forall j a s1 s2, l !! j = Some a -> R s1 s2 ->
                     R (f1 a (i + j)%nat s1) (f2 (h a) (i + j)%nat s2)) ->
  R s1 s2 ->
  R (forEachFrom f1 l i s1) (forEachFrom f2 (map h l) i s2).
Proof.
  revert i s1 s2. induction l as [| a l IH]; intros i s1 s2 Hstep HR; simpl; [exact HR |].
  apply IH.
  - intros j b t1 t2 Hb Ht. replace (S i + j)%nat with (i + S j)%nat by lia.
    apply Hstep; [exact Hb | exact Ht].
  - specialize (Hstep 0%nat a s1 s2 eq_refl HR).
    rewrite Nat.add_0_r in Hstep. exact Hstep.
Qed.

Lemma objects_cons (table : list (list nat)) (layout : Layout) :
  objects (table :: layout) = (concat table ++ objects layout)%list.
Proof. unfold objects. simpl. apply concat_app. Qed.

Lemma map_assign_absent (heap : Heap) (object : nat) (new : CellData) (cells : list nat) :
  ~ In object cells -> map (assign heap object new) cells = map heap cells.
Proof.
  intros Habsent. apply map_ext_in. intros other Hother. unfold assign.
  destruct (Nat.eqb_spec other object) as [-> | _]; [contradiction | reflexivity].
Qed.

Lemma rows_assign_absent (heap : Heap) (object : nat) (new : CellData)
    (table : list (list nat)) :
  ~ In object (concat table) ->
  map (map (assign heap object new)) table = map (map heap) table.
Proof.
  intros Habsent. apply map_ext_in. intros cells Hcells.
  apply map_assign_absent. intros Hin. apply Habsent.
  apply in_concat. exists cells. auto.
Qed.

Lemma tables_assign_absent (heap : Heap) (object : nat) (new : CellData) (layout : Layout) :
  ~ In object (objects layout) ->
  view (assign heap object new) layout = view heap layout.
Proof.
  intros Habsent. unfold view. apply map_ext_in. intros table Htable.
  apply rows_assign_absent. intros Hin. apply Habsent.
  unfold objects. apply in_concat in Hin as (cells & Hcells & Hin).
  apply in_concat. exists cells. split; [| exact Hin].
  apply in_concat. exists table. auto.
Qed.

Lemma NoDup_app_parts {A : Type} (l1 l2 : list A) :
  NoDup (l1 ++ l2) ->
  NoDup l1 /\ NoDup l2 /\ (forall x, In x l1 -> ~ In x l2) /\ (forall x, In x l2 -> ~ In x l1).
Proof.
  intros Hnodup. apply NoDup_app in Hnodup as (H1 & Hcross & H2).
  repeat split; try assumption.
  - intros x Hx Hx2. apply (Hcross x); apply list_elem_of_In; assumption.
  - intros x Hx Hx1. apply (Hcross x); apply list_elem_of_In; assumption.
Qed.

Lemma lookup_In {A : Type} (l : list A) (i : nat) (a : A) : l !! i = Some a -> In a l.
Proof. intros Hl. apply list_elem_of_In. eapply list_elem_of_lookup_2. exact Hl. Qed.

Lemma cells_assign (heap : Heap) (object : nat) (new : CellData) (cells : list nat) (c : nat) :
  NoDup cells -> cells !! c = Some object ->
  map (assign heap object new) cells = <[c := new]> (map heap cells).
Proof.
  revert c. induction cells as [| o cells IH]; intros c Hnodup Hc; [discriminate |].
  apply NoDup_cons in Hnodup as [Ho Hnodup].
  destruct c as [| c]; simpl in *.
  - injection Hc as ->. unfold assign at 1. rewrite Nat.eqb_refl. f_equal.
    apply map_assign_absent. intros Hin. apply Ho, list_elem_of_In, Hin.
  - f_equal; [| apply IH; assumption].
    unfold assign. destruct (Nat.eqb_spec o object) as [-> | _]; [| reflexivity].
    exfalso. apply Ho, list_elem_of_In. eapply lookup_In. exact Hc.
Qed.

Lemma rows_assign (heap : Heap) (object : nat) (new : CellData)
    (table : list (list nat)) (r c : nat) (cells : list nat) :
  NoDup (concat table) -> table !! r = Some cells -> cells !! c = Some object ->
  map (map (assign heap object new)) table
  = alter (fun cells => <[c := new]> cells) r (map (map heap) table).
Proof.
  revert r. induction table as [| row table IH]; intros r Hnodup Hr Hc; [discriminate |].
  simpl in Hnodup. apply NoDup_app_parts in Hnodup as (Hrow & Hrest & Hfirst & Hlater).
  destruct r as [| r]; simpl in *.
  - injection Hr as ->. f_equal.
    + apply cells_assign; assumption.
    + apply rows_assign_absent. apply Hfirst. eapply lookup_In. exact Hc.
  - f_equal.
    + apply map_assign_absent. apply Hlater. apply in_concat. exists cells.
      split; [eapply lookup_In; exact Hr | eapply lookup_In; exact Hc].
    + apply IH; assumption.
Qed.

Lemma view_assign (heap : Heap) (object : nat) (new : CellData) (layout : Layout)
    (t r c : nat) :
  NoDup (objects layout) -> objectAt layout (t, r, c) = Some object ->
  view (assign heap object new) layout = setCell (view heap layout) t r c new.
Proof.
  unfold objectAt, setCell. revert t.
  induction layout as [| table layout IH]; intros t Hnodup Hobject; [discriminate |].
  rewrite objects_cons in Hnodup.
  apply NoDup_app_parts in Hnodup as (Htable & Hrest & Hfirst & Hlater).
  destruct t as [| t]; simpl in Hobject.
  - destruct (table !! r) as [cells |] eqn:Hr; [| discriminate]. simpl in Hobject.
    change (map (map (assign heap object new)) table
              :: view (assign heap object new) layout
            = alter (fun cells => <[c := new]> cells) r (map (map heap) table)
                :: view heap layout).
    f_equal.
    + apply (rows_assign heap object new table r c cells); assumption.
    + apply tables_assign_absent. apply Hfirst. apply in_concat. exists cells.
      split; [eapply lookup_In; exact Hr | eapply lookup_In; exact Hobject].
  - change (map (map (assign heap object new)) table
              :: view (assign heap object new) layout
            = map (map heap) table
                :: alter (alter (fun cells => <[c := new]> cells) r) t (view heap layout)).
    f_equal.
    + apply rows_assign_absent. apply Hlater.
      destruct (layout !! t) as [table' |] eqn:Ht; [| discriminate]. simpl in Hobject.
      destruct (table' !! r) as [cells |] eqn:Hr; [| discriminate]. simpl in Hobject.
      unfold objects. apply in_concat. exists cells.
      split; [| eapply lookup_In; exact Hobject].
      apply in_concat. exists table'.
      split; [eapply lookup_In; exact Ht | eapply lookup_In; exact Hr].
    + apply IH; assumption.
Qed.

Lemma getCell_view (heap : Heap) (layout : Layout) (t r c : nat) :
  getCell (view heap layout) t r c = heap <$> objectAt layout (t, r, c).
Proof.
  unfold getCell, objectAt, view, Workbook, Table, Row, Layout in *.
  change (map (map (map heap)) layout) with (fmap (M := list) (fmap (M := list) (fmap (M := list) heap)) layout).
  rewrite list_lookup_fmap.
  destruct (layout !! t) as [table |]; [| reflexivity]. simpl.
  rewrite list_lookup_fmap.
  destruct (table !! r) as [cells |]; [| reflexivity]. simpl.
  apply list_lookup_fmap.
Qed.

(** When no object stands at two places, the run on objects and the run
    on the workbook read off them go step by step together. *)
Lemma processDataObjects_distinct `{Host} (data : ObjectData) (heap : Heap) :
  NoDup (objects (resultTables data)) ->
  outputTables data heap = tables (processData (DataArray (givenTables data heap))) /\
  objectFormulas (processDataObjects data heap)
  = formulas (processData (DataArray (givenTables data heap))).
Proof.
  intros Hnodup. unfold outputTables, givenTables, processDataObjects, processData.
  set (layout := resultTables data) in *.
  cbn [tables]. unfold forEach.
  set (R := fun (state : ObjectResult) (result : Result) =>
              view (objectHeap state) layout = tables result /\
              objectFormulas state = formulas result).
  enough (HR : R (forEachFrom
                    (fun table tableIndex =>
                       forEachFrom
                         (fun rows rowIndex =>
                            forEachFrom
                              (fun object colIndex state =>
                                 processObject layout tableIndex rowIndex colIndex object state)
                              rows 0) table 0) layout 0 (mkObjectResult heap []))
                 (forEachFrom
                    (fun table tableIndex =>
                       forEachFrom
                         (fun rows rowIndex =>
                            forEachFrom
                              (fun _ colIndex result =>
                                 match getCell (tables result) tableIndex rowIndex colIndex with
                                 | Some cell => processCell result tableIndex rowIndex colIndex cell
                                 | None => result
                                 end) rows 0) table 0)
                    (view heap layout) 0 (mkResult (view heap layout) []))) by exact HR.
  unfold view at 2.
  apply (forEachFrom_related R (map (map heap))); [| split; reflexivity].
  intros t table s1 s2 Htable HR. simpl.
  apply (forEachFrom_related R (map heap)); [| exact HR].
  intros r cells s1' s2' Hcells HR'. simpl.
  apply (forEachFrom_related R heap); [| exact HR'].
  intros c object state result Hobject [Htables Hformulas]. simpl.
  assert (Hat : objectAt layout (t, r, c) = Some object).
  { unfold objectAt, Layout in *. rewrite Htable. simpl. rewrite Hcells. simpl.
    exact Hobject. }
  rewrite <- Htables, getCell_view, Hat. simpl.
  rewrite processObject_stored. simpl.
  assert (Hresult : mkResult (view (objectHeap state) layout) (objectFormulas state) = result).
  { destruct result as [ts fs]. simpl in *. subst. reflexivity. }
  rewrite Hresult. split; simpl.
  - rewrite processCell_tables, <- Htables.
    apply view_assign; assumption.
  - reflexivity.
Qed.

(** With one row object at two places the second visit finds the
    assignments of the first: every cell of the output holds 3, and the
    first entry of [formulas], copied during the first visit, still holds
    the text that the referenced cell had then. *)
Example processDataObjects_shared_row :
  map (map (map resolvedValue))
      (outputTables (H := ExampleHost.exampleHost)
         (ObjectArray [[ [2; 0]%nat; [2; 0]%nat ]]) exampleHeap)
  = [[ [VNum 3; VNum 3]; [VNum 3; VNum 3] ]] /\
  map (fun entry => resolvedValue (entryCell entry))
      (objectFormulas (processDataObjects (H := ExampleHost.exampleHost)
                         (ObjectArray [[ [2; 0]%nat; [2; 0]%nat ]]) exampleHeap))
  = [VStr "=1+2"; VNum 3; VNum 3; VNum 3].
Proof. vm_compute. split; reflexivity. Qed.

(** X22: when no cell object stands at two places of the input and its
    formulas parse to ordinary trees, a formula cell is evaluated against
    the workbook as the visit has left it: the
    cells at earlier places (earlier table, or same table and earlier row,
    or same row and earlier column) are the output's cells, already
    resolved, and the cells at its own and at later places are still the
    input's; its resolved value is [_convertToNumber] of that evaluation, on
    a fresh visited set. *)
Theorem processDataObjects_formula_cell `{Host} (data : ObjectData) (heap : Heap)
    (t r c object : nat) (formula : string) :
  NoDup (objects (resultTables data)) ->
  ordinaryFormulas data heap ->
  objectAt (resultTables data) (t, r, c) = Some object ->
  isFormula (value (heap object)) = Some formula ->
  exists seen : Workbook,
    (forall q, placeBefore q (t, r, c) ->
               cellAt seen q = cellAt (outputTables data heap) q) /\
    (forall q, ~ placeBefore q (t, r, c) ->
               cellAt seen q = cellAt (givenTables data heap) q) /\
    resolvedValue (objectHeap (processDataObjects data heap) object)
    = _convertToNumber (fst (evaluateFormula formula seen (Z.of_nat t) ∅)).
Proof.
  intros Hnodup _ Hobject Hformula.
  destruct (processDataObjects_distinct data heap Hnodup) as [Htables _].
  destruct (processData_formula_cell_distinct (DataArray (givenTables data heap))
              t r c (heap object) formula) as (seen & Hbefore & Hlater & Hresolved).
  { simpl. unfold givenTables. rewrite getCell_view, Hobject. reflexivity. }
  { exact Hformula. }
  exists seen. rewrite Htables. split; [exact Hbefore | split; [exact Hlater |]].
  unfold resolvedAt in Hresolved. rewrite <- Htables in Hresolved.
  unfold outputTables in Hresolved. rewrite getCell_view, Hobject in Hresolved.
  simpl in Hresolved. injection Hresolved as Hresolved. exact Hresolved.
Qed.

Lemma processDataObjects_formula_cell_witness :
  exists seen : Workbook,
    (forall q, placeBefore q (0, 0, 1)%nat ->
               cellAt seen q
               = cellAt (outputTables (H := ExampleHost.exampleHost)
                           (ObjectArray [[ [0; 1]%nat ]]) exampleHeap) q) /\
    (forall q, ~ placeBefore q (0, 0, 1)%nat ->
               cellAt seen q
               = cellAt (givenTables (ObjectArray [[ [0; 1]%nat ]]) exampleHeap) q) /\
    resolvedValue (objectHeap (processDataObjects (H := ExampleHost.exampleHost)
                                 (ObjectArray [[ [0; 1]%nat ]]) exampleHeap) 1%nat)
    = _convertToNumber (H := ExampleHost.exampleHost)
        (fst (evaluateFormula (H := ExampleHost.exampleHost)
                "=A1" seen (Z.of_nat 0) ∅)).
Proof.
  apply (processDataObjects_formula_cell (H := ExampleHost.exampleHost)
           (ObjectArray [[ [0; 1]%nat ]]) exampleHeap 0 0 1 1 "=A1");
    [apply (bool_decide_unpack _); vm_compute; exact I
    | ordinary_formulas | reflexivity | reflexivity].
Defined.

(** X23: when no cell object stands at two places of the input and its
    formulas parse to ordinary trees, a formula that is a plain reference
    (with safe coordinates) to a cell of table
    [t'] stores what that cell holds at the moment of the visit: when the
    referenced place comes before the formula's place, the output's cell
    there (its resolved value if it has one); when it is the formula's own
    place or a later one, the input's cell there (for an unresolved input
    cell, its raw value, formula text included); and [#REF!] when no cell is
    there. *)
Theorem processDataObjects_reference `{Host} (data : ObjectData) (heap : Heap)
    (t r c t' object : nat) (formula reference : string) (tableId : option Z)
    (cellRef : CellRef) :
  NoDup (objects (resultTables data)) ->
  ordinaryFormulas data heap ->
  objectAt (resultTables data) (t, r, c) = Some object ->
  isFormula (value (heap object)) = Some formula ->
  parse formula = Normal (Cell reference tableId) ->
  effectiveTable tableId (Z.of_nat t) = Z.of_nat t' ->
  parseCellReference reference = Some cellRef ->
  safeCellRef cellRef ->
  0 <= row cellRef ->
  (placeBefore (t', Z.to_nat (row cellRef), Z.to_nat (col cellRef)) (t, r, c) ->
   resolvedValue (objectHeap (processDataObjects data heap) object)
   = _convertToNumber
       match getCell (outputTables data heap)
                     t' (Z.to_nat (row cellRef)) (Z.to_nat (col cellRef)) with
       | Some referenced => currentValue referenced
       | None => REF
       end) /\
  (~ placeBefore (t', Z.to_nat (row cellRef), Z.to_nat (col cellRef)) (t, r, c) ->
   resolvedValue (objectHeap (processDataObjects data heap) object)
   = _convertToNumber
       match getCell (givenTables data heap)
                     t' (Z.to_nat (row cellRef)) (Z.to_nat (col cellRef)) with
       | Some referenced => currentValue referenced
       | None => REF
       end).
Proof.
  intros Hnodup _ Hobject Hformula Hparse Htable Href _ Hrow.
  destruct (processDataObjects_distinct data heap Hnodup) as [Htables _].
  destruct (processData_reference_distinct (DataArray (givenTables data heap))
              t r c t' (heap object) formula reference tableId cellRef)
    as [Hbefore Hlater]; try assumption.
  { simpl. unfold givenTables. rewrite getCell_view, Hobject. reflexivity. }
  assert (Hstored : resolvedAt (processData (DataArray (givenTables data heap))) t r c
                    = Some (resolvedValue
                              (objectHeap (processDataObjects data heap) object))).
  { unfold resolvedAt. rewrite <- Htables. unfold outputTables.
    rewrite getCell_view, Hobject. reflexivity. }
  rewrite Hstored in Hbefore, Hlater. rewrite Htables.
  split; intros Hplace.
  - specialize (Hbefore Hplace). injection Hbefore as Hbefore. exact Hbefore.
  - specialize (Hlater Hplace). injection Hlater as Hlater. exact Hlater.
Qed.

Lemma processDataObjects_reference_witness :
  (placeBefore (0, Z.to_nat 0, Z.to_nat 1)%nat (0, 0, 0)%nat ->
   resolvedValue (objectHeap (processDataObjects (H := ExampleHost.exampleHost)
                                (ObjectArray [[ [2; 0]%nat ]]) exampleHeap) 2%nat)
   = _convertToNumber (H := ExampleHost.exampleHost)
       match getCell (outputTables (H := ExampleHost.exampleHost)
                        (ObjectArray [[ [2; 0]%nat ]]) exampleHeap)
                     0 (Z.to_nat 0) (Z.to_nat 1) with
       | Some referenced => currentValue referenced
       | None => REF
       end) /\
  (~ placeBefore (0, Z.to_nat 0, Z.to_nat 1)%nat (0, 0, 0)%nat ->
   resolvedValue (objectHeap (processDataObjects (H := ExampleHost.exampleHost)
                                (ObjectArray [[ [2; 0]%nat ]]) exampleHeap) 2%nat)
   = _convertToNumber (H := ExampleHost.exampleHost)
       match getCell (givenTables (ObjectArray [[ [2; 0]%nat ]]) exampleHeap)
                     0 (Z.to_nat 0) (Z.to_nat 1) with
       | Some referenced => currentValue referenced
       | None => REF
       end).
Proof.
  apply (processDataObjects_reference (H := ExampleHost.exampleHost)
           (ObjectArray [[ [2; 0]%nat ]]) exampleHeap 0 0 0 0 2
           "=B1" "B1" None (mkCellRef 1 0 false false));
    try reflexivity.
  - apply (bool_decide_unpack _). vm_compute. exact I.
  - ordinary_formulas.
  - repeat split; reflexivity.
Defined.

(** X24: when no cell object stands at two places of the input and its
    formulas parse to ordinary trees, the [formulas] list of the result holds one entry for each formula cell of
    the workbook and none for the other cells, in the order of the visit
    (table, then row, then column), and each entry carries its place and
    the cell exactly as it stands in the output tables. *)
Theorem processDataObjects_formulas `{Host} (data : ObjectData) (heap : Heap) :
  NoDup (objects (resultTables data)) ->
  ordinaryFormulas data heap ->
  objectFormulas (processDataObjects data heap)
  = omap (entryAt (outputTables data heap)) (places (givenTables data heap)) /\
  (forall t r c object,
      objectAt (resultTables data) (t, r, c) = Some object ->
      (is_Some (isFormula (value (heap object)))
       <-> exists cell', In (mkEntry t r c cell')
                            (objectFormulas (processDataObjects data heap)))).
Proof.
  intros Hnodup _.
  destruct (processDataObjects_distinct data heap Hnodup) as [Htables Hformulas].
  destruct (processData_formulas_distinct (DataArray (givenTables data heap)))
    as [Hlist Hentries].
  rewrite Hformulas, Htables. split; [exact Hlist |].
  intros t r c object Hobject. apply Hentries.
  simpl. unfold givenTables. rewrite getCell_view, Hobject. reflexivity.
Qed.

Lemma processDataObjects_formulas_witness :
  objectFormulas (processDataObjects (H := ExampleHost.exampleHost)
                    (ObjectArray [[ [2; 3]%nat; [0]%nat ]]) exampleHeap)
  = omap (entryAt (outputTables (H := ExampleHost.exampleHost)
                     (ObjectArray [[ [2; 3]%nat; [0]%nat ]]) exampleHeap))
         (places (givenTables (ObjectArray [[ [2; 3]%nat; [0]%nat ]]) exampleHeap)) /\
  (forall t r c object,
      objectAt (resultTables (ObjectArray [[ [2; 3]%nat; [0]%nat ]])) (t, r, c)
      = Some object ->
      (is_Some (isFormula (value (exampleHeap object)))
       <-> exists cell',
           In (mkEntry t r c cell')
              (objectFormulas (processDataObjects (H := ExampleHost.exampleHost)
                                 (ObjectArray [[ [2; 3]%nat; [0]%nat ]]) exampleHeap)))).
Proof.
  apply (processDataObjects_formulas (H := ExampleHost.exampleHost)
           (ObjectArray [[ [2; 3]%nat; [0]%nat ]]) exampleHeap).
  - apply (bool_decide_unpack _). vm_compute. exact I.
  - ordinary_formulas.
Defined.
